(** * Multilayer perceptron notebook: forward pass, objective, backpropagation

    A shallow embedding of the code cells of [multilayer-perceptrons.ipynb]
    ([relu], [predict], [frob_squared], [train]).

    Numbers.  The notebook computes with NumPy float64 arrays.  The
    embedding reads every arithmetic operation exactly, over the canonical
    rationals [Qc]; rounding, overflow and NaN are outside it.

    Arrays.  A 2-D array is its column count together with its list of
    rows, so that arrays with no row still have a shape.  NumPy operations
    that raise (shape mismatch in [np.matmul], incompatible broadcast, an
    index out of range) return [None].

    Python integers are [Z]; list subscripts follow Python (negative
    subscripts count from the end, anything else out of range raises),
    and the identity test [is not] on integers follows CPython. *)

From Stdlib Require Import ZArith QArith Qcanon Lia.
From stdpp Require Import base option list.

Local Open Scope Z_scope.

(** ** Python lists and loops *)

Module Py.

Definition len {A} (l : list A) : Z := Z.of_nat (length l).

(** [range(n)]: empty when [n <= 0]. *)
Definition range (n : Z) : list Z := seqZ 0 n.

(** Position denoted by the subscript [i] of a list, [None] for
    [IndexError]. *)
Definition index {A} (l : list A) (i : Z) : option nat :=
  if bool_decide (0 ≤ i < len l) then Some (Z.to_nat i)
  else if bool_decide (- len l ≤ i < 0) then Some (Z.to_nat (i + len l))
  else None.

(** [l[i]] *)
Definition getitem {A} (l : list A) (i : Z) : option A :=
  k ← index l i; l !! k.

(** [l[i] = x] *)
Definition setitem {A} (l : list A) (i : Z) (x : A) : option (list A) :=
  k ← index l i; Some (<[k:=x]> l).

(** A [for] loop whose body may raise: the state is threaded through
    the iterations, the first exception ends the loop. *)
Fixpoint for_ {S A} (xs : list A) (body : S → A → option S) (s : S)
  : option S :=
  match xs with
  | [] => Some s
  | x :: xs' => s' ← body s x; for_ xs' body s'
  end.

(** The integers of which CPython keeps a single object each: -5 to
    256. *)
Definition is_small_int (a : Z) : bool := (-5 <=? a) && (a <=? 256).

(** [a is not b] on two integers that the program has just computed
    (a value of [range] and a result of arithmetic): identity of the two
    objects.  In CPython equal integers are one object when they are
    small; every other result is a new object, different from all
    others, whatever its value. *)
Definition is_not (a b : Z) : bool := negb ((a =? b) && is_small_int a).

End Py.

(** ** NumPy arrays *)

Module Np.

Record ndarray := NdArray { ncols : nat; rows : list (list Qc) }.

Definition nrows (A : ndarray) : nat := length (rows A).
Definition shape (A : ndarray) : nat * nat := (nrows A, ncols A).

(** Every row has [ncols] entries: what makes a value an array. *)
Definition wf (A : ndarray) : Prop :=
  Forall (λ r, length r = ncols A) (rows A).

Definition get (A : ndarray) (i j : nat) : Qc :=
  nth j (nth i (rows A) []) 0%Qc.

Definition build (r c : nat) (f : nat → nat → Qc) : ndarray :=
  NdArray c ((λ i, f i <$> seq 0 c) <$> seq 0 r).

(** Sum of [f 0 .. f (n-1)]. *)
Definition sumf (n : nat) (f : nat → Qc) : Qc :=
  foldr (λ k acc, (f k + acc)%Qc) 0%Qc (seq 0 n).

Definition Qcmax (x y : Qc) : Qc := if Qclt_le_dec x y then y else x.

(** [np.zeros(A.shape)] *)
Definition zeros (sh : nat * nat) : ndarray :=
  build sh.1 sh.2 (λ _ _, 0%Qc).

(** [np.transpose(A)] *)
Definition transpose (A : ndarray) : ndarray :=
  build (ncols A) (nrows A) (λ i j, get A j i).

(** [np.matmul(A, B)]: raises unless the inner dimensions agree. *)
Definition matmul (A B : ndarray) : option ndarray :=
  if decide (ncols A = nrows B)
  then Some (build (nrows A) (ncols B)
               (λ i j, sumf (ncols A) (λ k, (get A i k * get B k j)%Qc)))
  else None.

(** Broadcasting of one dimension: equal sizes, or one of them is 1. *)
Definition bdim (a b : nat) : option nat :=
  if decide (a = b) then Some a
  else if decide (a = 1%nat) then Some b
  else if decide (b = 1%nat) then Some a
  else None.

(** Entry of [A] seen through broadcasting: an axis of size 1 is
    repeated. *)
Definition bget (A : ndarray) (i j : nat) : Qc :=
  get A (if decide (nrows A = 1%nat) then 0%nat else i)
        (if decide (ncols A = 1%nat) then 0%nat else j).

(** An elementwise binary operation with broadcasting. *)
Definition broadcast (f : Qc → Qc → Qc) (A B : ndarray) : option ndarray :=
  r ← bdim (nrows A) (nrows B);
  c ← bdim (ncols A) (ncols B);
  Some (build r c (λ i j, f (bget A i j) (bget B i j))).

Definition add : ndarray → ndarray → option ndarray := broadcast Qcplus.
Definition subtract : ndarray → ndarray → option ndarray := broadcast Qcminus.
Definition multiply : ndarray → ndarray → option ndarray := broadcast Qcmult.
Definition maximum : ndarray → ndarray → option ndarray := broadcast Qcmax.

(** [k * A] for a scalar [k]. *)
Definition scale (k : Qc) (A : ndarray) : ndarray :=
  build (nrows A) (ncols A) (λ i j, (k * get A i j)%Qc).

(** [np.tile(A, (reps, 1))]: the rows of [A], [reps] times over. *)
Definition tile (A : ndarray) (reps : nat) : ndarray :=
  build (reps * nrows A) (ncols A) (λ i j, get A (i mod nrows A) j).

(** [np.trace(A)] *)
Definition trace (A : ndarray) : Qc :=
  sumf (nrows A `min` ncols A) (λ i, get A i i).

(** [A[:,0]], a 1-D array; raises when [A] has no column. *)
Definition column0 (A : ndarray) : option (list Qc) :=
  if decide (ncols A = 0%nat) then None
  else Some ((λ i, get A i 0) <$> seq 0 (nrows A)).

(** [np.dot(v, w)] on 1-D arrays; raises unless the lengths agree. *)
Definition dot (v w : list Qc) : option Qc :=
  if decide (length v = length w)
  then Some (foldr Qcplus 0%Qc (zip_with Qcmult v w))
  else None.

(** [np.sum(A, axis=0)], a 1-D array with one entry per column. *)
Definition sum_axis0 (A : ndarray) : list Qc :=
  (λ j, sumf (nrows A) (λ i, get A i j)) <$> seq 0 (ncols A).

(** [k * v] for a scalar [k] and a 1-D array [v]. *)
Definition scale1 (k : Qc) (v : list Qc) : list Qc := Qcmult k <$> v.

(** A 1-D array as broadcasting sees it next to a 2-D one: a single
    row. *)
Definition as_row (v : list Qc) : ndarray := NdArray (length v) [v].

(** [B = A.copy(); B[B > 0] = 1.0] *)
Definition set_positive_to_one (A : ndarray) : ndarray :=
  build (nrows A) (ncols A)
    (λ i j, if Qclt_le_dec 0 (get A i j) then 1%Qc else get A i j).

End Np.

Import Np.

(** ** The notebook *)

(** [class Model]: the layer sizes, and one weight matrix and one bias row
    per pair of neighbouring layers. *)
Record Model := MkModel {
  layers : list nat;
  weights : list ndarray;
  biases : list ndarray
}.

(** [def relu(A)] *)
Definition relu (A : ndarray) : option ndarray :=
  let zeros := zeros (shape A) in
  maximum A zeros.

(** One iteration of the loop of [predict], on the pair of
    [last_predicted] and [save_activated] ([None] when no list was
    passed). *)
Definition predict_body (self : Model)
    (st : ndarray * option (list ndarray)) (i : Z)
  : option (ndarray * option (list ndarray)) :=
  let '(last_predicted, save_activated) := st in
  b ← Py.getitem (biases self) i;
  let b_matrix := tile b (nrows last_predicted) in
  w ← Py.getitem (weights self) i;
  m ← matmul last_predicted w;
  last_predicted ← add m b_matrix;
  last_predicted ←
    (if Py.is_not i (Py.len (layers self) - 2)
     then relu last_predicted else Some last_predicted);
  Some (last_predicted, (λ l, l ++ [last_predicted]) <$> save_activated).

(** [def predict(self, input, save_activated=None)]: the prediction,
    and the list [save_activated] as the call leaves it. *)
Definition predict (self : Model) (input : ndarray)
    (save_activated : option (list ndarray))
  : option (ndarray * option (list ndarray)) :=
  let last_predicted := input in
  Py.for_ (Py.range (Py.len (layers self) - 1)) (predict_body self)
    (last_predicted, save_activated).

(** [def frob_squared(A)] *)
Definition frob_squared (A : ndarray) : option Qc :=
  m ← matmul (transpose A) A; Some (trace m).

(** Python's [a / b] on numbers: raises [ZeroDivisionError] when [b] is
    zero. *)
Definition py_div (a b : Qc) : option Qc :=
  if decide (b = 0%Qc) then None else Some (a / b)%Qc.

Definition of_int (n : Z) : Qc := Q2Qc (inject_Z n).

(** The locals of one run of the inner loop of [train], as the run
    leaves them. *)
Record Run := MkRun {
  y_hat : ndarray;
  activated : list ndarray;
  errors : ndarray;
  loss : Qc;
  s : Qc;
  objective : Qc;
  z_primes : list ndarray;
  deltas : list ndarray
}.

(** [for theta in self.weights: s += frob_squared(theta)] *)
Definition s_body (s : Qc) (theta : ndarray) : option Qc :=
  f ← frob_squared theta; Some (s + f)%Qc.

(** Body of the loop "compute z primes". *)
Definition z_primes_body (self : Model) (activated : list ndarray)
    (z_primes : list ndarray) (j : Z) : option (list ndarray) :=
  a ← Py.getitem activated (Py.len (layers self) - 3 - j);
  let a_primes := set_positive_to_one a in
  z ← Py.getitem z_primes (Py.len activated - 1 - j);
  w ← Py.getitem (weights self) (Py.len (layers self) - 2 - j);
  m ← matmul z (transpose w);
  prev_z_prime ← multiply m a_primes;
  Py.setitem z_primes (Py.len activated - 2 - j) prev_z_prime.

(** Body of the loop "compute deltas". *)
Definition deltas_body (activated z_primes : list ndarray)
    (deltas : list ndarray) (j : Z) : option (list ndarray) :=
  a ← Py.getitem activated j;
  z ← Py.getitem z_primes (j + 1);
  d ← matmul (transpose a) z;
  Py.setitem deltas (j + 1) d.

(** Body of the loop "update weights and biases", on the pair of
    [self.weights] and [self.biases]. *)
Definition update_body (l lr : Qc) (num_samples : Z)
    (deltas z_primes : list ndarray)
    (st : list ndarray * list ndarray) (j : Z)
  : option (list ndarray * list ndarray) :=
  let '(ws, bs) := st in
  w ← Py.getitem ws j;
  inv ← py_div 1 (of_int num_samples);
  d ← Py.getitem deltas j;
  g ← add (scale inv d) (scale l w);
  w' ← subtract w (scale lr g);
  ws ← Py.setitem ws j w';
  b ← Py.getitem bs j;
  k ← py_div lr (of_int num_samples);
  z ← Py.getitem z_primes j;
  b' ← subtract b (as_row (scale1 k (sum_axis0 z)));
  bs ← Py.setitem bs j b';
  Some (ws, bs).

(** One run of the inner loop of [train] (without the logging): the
    model after the update, and the locals of the run.  [l] is the weight
    decay parameter, which [train] fixes. *)
Definition train_run (l lr : Qc) (inputs outputs : ndarray) (self : Model)
  : option (Model * Run) :=
  let num_samples := Z.of_nat (nrows inputs) in
  let s := 0%Qc in
  let activated := [] in
  '(y_hat, activated) ← predict self inputs (Some activated);
  activated ← activated;
  errors ← subtract y_hat outputs;
  e0 ← column0 errors;
  d ← dot e0 e0;
  half ← py_div 1 2;
  let loss := (half * d ^ 2)%Qc in
  s ← Py.for_ (weights self) s_body s;
  inv ← py_div 1 (of_int num_samples);
  l2 ← py_div l 2;
  let objective := (inv * loss + l2 * s)%Qc in
  let deltas := weights self in
  let z_primes := activated in
  z_primes ← Py.setitem z_primes (Py.len activated - 1) errors;
  z_primes ← Py.for_ (Py.range (Py.len (layers self) - 2))
               (z_primes_body self activated) z_primes;
  z0 ← Py.getitem z_primes 0;
  d0 ← matmul (transpose inputs) z0;
  deltas ← Py.setitem deltas 0 d0;
  deltas ← Py.for_ (Py.range (Py.len (layers self) - 3))
             (deltas_body activated z_primes) deltas;
  '(ws, bs) ← Py.for_ (Py.range (Py.len (weights self) - 1))
                (update_body l lr num_samples deltas z_primes)
                (weights self, biases self);
  Some (MkModel (layers self) ws bs,
        MkRun y_hat activated errors loss s objective z_primes deltas).

(** [l = 1e-5] *)
Definition weight_decay : Qc := Q2Qc (1 # 100000).

(** Body of the loop over [run]: one run on the model, after which
    [y_hat] is bound. *)
Definition run_body (l lr : Qc) (inputs outputs : ndarray)
    (st : Model * option ndarray) (run : Z)
  : option (Model * option ndarray) :=
  '(self, r) ← train_run l lr inputs outputs st.1;
  Some (self, Some (y_hat r)).

(** Body of the loop over [epoch]: [t] runs, then [y_hat] is printed, which
    raises if no run has bound it. *)
Definition epoch_body (l lr : Qc) (inputs outputs : ndarray) (t : Z)
    (st : Model * option ndarray) (epoch : Z)
  : option (Model * option ndarray) :=
  st ← Py.for_ (Py.range t) (run_body l lr inputs outputs) st;
  _ ← st.2;
  Some st.

(** [def train(self, inputs, outputs, num_epochs=5, lr=0.01, t=1000)]: the
    model as training leaves it and the returned [y_hat], which is unbound
    if no run took place. *)
Definition train (self : Model) (inputs outputs : ndarray)
    (num_epochs : Z) (lr : Qc) (t : Z) : option (Model * ndarray) :=
  let l := weight_decay in
  '(self, y_hat) ←
    Py.for_ (Py.range num_epochs) (epoch_body l lr inputs outputs t)
      (self, None);
  y_hat ← y_hat;
  Some (self, y_hat).

(** ** The design's words

    Definitions that follow the description of the design rather than the
    code; the claims compare the code with them. *)

(** Output of one layer transition: the product with the weights plus the
    bias row on every sample row, through ReLU unless the transition is
    the final one. *)
Definition layer_output (final : bool) (X W b : ndarray) : ndarray :=
  build (nrows X) (ncols W)
    (λ r c,
       let pre :=
         (sumf (ncols X) (λ k, get X r k * get W k c) + get b 0 c)%Qc in
       if final then pre else Qcmax pre 0).

(** The outputs of all layer transitions from the input [X], in order;
    [plain] tells whether the final transition goes without ReLU. *)
Fixpoint transitions (plain : bool) (X : ndarray) (Ws bs : list ndarray)
  : list ndarray :=
  match Ws, bs with
  | W :: Ws', b :: bs' =>
      let final := match Ws' with [] => plain | _ => false end in
      let Y := layer_output final X W b in
      Y :: transitions plain Y Ws' bs'
  | _, _ => []
  end.

(** The forward pass of the design: ReLU at every transition but the
    final one. *)
Definition forward (X : ndarray) (Ws bs : list ndarray) : list ndarray :=
  transitions true X Ws bs.

(** Shapes along a network: weight [i] is [(layers[i], layers[i+1])], bias
    [i] is [(1, layers[i+1])], one of each per pair of neighbouring
    layers. *)
Fixpoint shaped (ls : list nat) (Ws bs : list ndarray) {struct Ws} : Prop :=
  match Ws, bs with
  | [], [] => (length ls ≤ 1)%nat
  | W :: Ws', B :: bs' =>
      match ls with
      | a :: ls' =>
          wf W ∧ shape W = (a, default 0%nat (head ls')) ∧
          wf B ∧ shape B = (1%nat, default 0%nat (head ls')) ∧
          ls' ≠ [] ∧ shaped ls' Ws' bs'
      | [] => False
      end
  | _, _ => False
  end.

(** What [Model.__init__] establishes (the random entries themselves are
    arbitrary). *)
Definition initialized (self : Model) : Prop :=
  shaped (layers self) (weights self) (biases self).

(** What transition [i] is fed: the input batch for the first one, the
    output of the transition before it otherwise. *)
Definition layer_input (X : ndarray) (acts : list ndarray) (i : nat)
  : ndarray :=
  match i with
  | O => X
  | S i' => default X (acts !! i')
  end.

(** The backward recurrence at boundary [k]: the error signal there is the
    one at [k+1] times the transposed weight matrix [k+1], multiplied
    elementwise with [deriv] of the cached activation at [k]. *)
Definition z_prime_step (deriv : ndarray → ndarray) (self : Model)
    (activated z_primes : list ndarray) (k : nat) : Prop :=
  ∃ A Z W M Zk,
    activated !! k = Some A ∧ z_primes !! S k = Some Z ∧
    weights self !! S k = Some W ∧
    matmul Z (transpose W) = Some M ∧ multiply M (deriv A) = Some Zk ∧
    z_primes !! k = Some Zk.

(** ReLU's derivative on a matrix of forward outputs: 1 where the output
    is strictly positive, 0 elsewhere. *)
Definition relu_derivative (A : ndarray) : ndarray :=
  build (nrows A) (ncols A)
    (λ i j, if Qclt_le_dec 0 (get A i j) then 1%Qc else 0%Qc).

(** All entries of [A] are non-negative. *)
Definition nonneg (A : ndarray) : Prop :=
  ∀ i j, (i < nrows A)%nat → (j < ncols A)%nat → (0 ≤ get A i j)%Qc.

(** The gradient stored for weight matrix [k > 0]: the transposed cached
    activation at [k-1] times the error signal at [k]. *)
Definition delta_step (activated z_primes deltas : list ndarray) (k : nat)
  : Prop :=
  ∃ A Z D,
    activated !! pred k = Some A ∧ z_primes !! k = Some Z ∧
    matmul (transpose A) Z = Some D ∧ deltas !! k = Some D.

(** The update of weight matrix and bias [k] from the model [self] to
    [ws], [bs]. *)
Definition updated (l lr : Qc) (num_samples : Z)
    (deltas z_primes : list ndarray) (self : Model)
    (ws bs : list ndarray) (k : nat) : Prop :=
  ∃ W d inv g W' b kk z b',
    weights self !! k = Some W ∧ deltas !! k = Some d ∧
    py_div 1 (of_int num_samples) = Some inv ∧
    add (scale inv d) (scale l W) = Some g ∧
    subtract W (scale lr g) = Some W' ∧ ws !! k = Some W' ∧
    biases self !! k = Some b ∧ z_primes !! k = Some z ∧
    py_div lr (of_int num_samples) = Some kk ∧
    subtract b (as_row (scale1 kk (sum_axis0 z))) = Some b' ∧
    bs !! k = Some b'.

(** Sum of the squares of all entries of [A]. *)
Definition sum_squares (A : ndarray) : Qc :=
  foldr (λ row acc, (foldr (λ x a, x * x + a) 0 row + acc)%Qc) 0%Qc (rows A).

(** Sum of the squares of all entries of all matrices of [Ws]. *)
Definition total_sum_squares (Ws : list ndarray) : Qc :=
  foldr (λ W acc, (sum_squares W + acc)%Qc) 0%Qc Ws.

(** The loss term as the design states it: the squared prediction errors
    summed over all samples and output components, times
    [1 / (2 * num_samples)]. *)
Definition half_mse (num_samples : nat) (errors : ndarray) : Qc :=
  (1 / (2 * of_int (Z.of_nat num_samples)) * sum_squares errors)%Qc.

(** ** Two small networks, for the concrete evaluations *)

Definition int_array (c : nat) (rs : list (list Z)) : ndarray :=
  NdArray c ((λ row : list Z, of_int <$> row) <$> rs).

(** No hidden layer: layer sizes (1, 1). *)
Definition net_linear : Model :=
  MkModel [1%nat; 1%nat] [int_array 1 [[1]]] [int_array 1 [[0]]].

(** One hidden layer: layer sizes (2, 2, 1). *)
Definition net_hidden : Model :=
  MkModel [2%nat; 2%nat; 1%nat]
    [int_array 2 [[1; -1]; [1; 1]]; int_array 1 [[1]; [2]]]
    [int_array 2 [[0; 0]]; int_array 1 [[0]]].

Definition inputs_hidden : ndarray := int_array 2 [[1; 2]; [3; 1]].
Definition outputs_hidden : ndarray := int_array 1 [[1]; [2]].

(** A deep network: 259 layer sizes, all 1; the first 257 transitions
    multiply by 1 and the final one by -1, without bias. *)
Definition net_deep : Model :=
  MkModel (replicate 259 1%nat)
    (replicate 257 (int_array 1 [[1]]) ++ [int_array 1 [[-1]]])
    (replicate 258 (int_array 1 [[0]])).

Definition input_deep : ndarray := int_array 1 [[3]].

(** [lr=0.01] *)
Definition lr_default : Qc := Q2Qc (1 # 100).

(** Shapes of the lists of a run on [num_samples] samples: entry [k] of the
    activations and of the error signals is
    [(num_samples, layers[k+1])], entry [k] of the weights and of the
    gradients is [(layers[k], layers[k+1])], entry [k] of the biases is
    [(1, layers[k+1])]. *)
Definition col_shaped (self : Model) (num_samples : nat) (zs : list ndarray)
  : Prop :=
  ∀ k Z, zs !! k = Some Z →
         ∃ b, layers self !! S k = Some b ∧ shape Z = (num_samples, b).

Definition mat_shaped (self : Model) (ds : list ndarray) : Prop :=
  ∀ k D, ds !! k = Some D →
         ∃ a b, layers self !! k = Some a ∧ layers self !! S k = Some b ∧
                wf D ∧ shape D = (a, b).

Definition bias_shaped (self : Model) (bs : list ndarray) : Prop :=
  ∀ k B, bs !! k = Some B →
         ∃ b, layers self !! S k = Some b ∧ wf B ∧ shape B = (1%nat, b).

(** ** The constructor of the network

    [rng.random((a, b))] is taken as a parameter: [random g a b] is the
    array it returns in the generator state [g], with the state it
    leaves. *)

(** Body of the loop of [Model.__init__], on the generator state and the
    lists [self.weights] and [self.biases]. *)
Definition init_body {G} (random : G → nat → nat → ndarray * G)
    (layers : list nat) (st : G * (list ndarray * list ndarray)) (i : Z)
  : option (G * (list ndarray * list ndarray)) :=
  let '(g, (ws, bs)) := st in
  a ← Py.getitem layers i;
  b ← Py.getitem layers (i + 1);
  let '(W, g) := random g a b in
  b' ← Py.getitem layers (i + 1);
  let '(B, g) := random g 1%nat b' in
  Some (g, (ws ++ [W], bs ++ [B])).

(** [def __init__(self, layers)], from the state [g] of the fresh
    generator: the model, and the generator state left. *)
Definition init {G} (random : G → nat → nat → ndarray * G) (g : G)
    (layers : list nat) : option (Model * G) :=
  '(g, (ws, bs)) ←
    Py.for_ (Py.range (Py.len layers - 1)) (init_body random layers)
      (g, ([], []));
  Some (MkModel layers ws bs, g).

(** A generator for the concrete evaluations: every entry is 1/2. *)
Definition random_half (g : unit) (a b : nat) : ndarray * unit :=
  (build a b (λ _ _, Q2Qc (1 # 2)), g).

(** ** The polynomial regression notebook

    The cells of the notebook on polynomial linear regression: its own
    [Model] class with [__init__] and [train].  The inputs [x] and [y] are
    1-D arrays; [x_matrix] is 1-D until the first [np.vstack] and 2-D
    after it, so the NumPy operations are given on both. *)

Module Regression.

(** An array of one or of two dimensions. *)
Inductive array :=
  | Arr1 (v : list Qc)
  | Arr2 (M : ndarray).

(** What [np.matmul] returns: a number for two 1-D arguments, an array
    otherwise. *)
Inductive value :=
  | Scalar (q : Qc)
  | Array (a : array).

(** One line of the printed output: the loss logged at a run, or the
    weights printed after an epoch. *)
Inductive line :=
  | Run (run : Z) (mse : Qc)
  | Epoch (epoch : Z) (weights : ndarray).

(** [np.ones(n)], 1-D. *)
Definition ones (n : nat) : array := Arr1 (replicate n 1%Qc).

(** [np.power(x, i)] on a 1-D array and an integer [i >= 0]. *)
Definition power (x : list Qc) (i : Z) : list Qc :=
  (λ v, v ^ Z.to_nat i)%Qc <$> x.

(** [np.vstack((a, row))] for a 1-D [row]: the arrays stacked as rows;
    raises unless the row lengths agree. *)
Definition vstack (a : array) (row : list Qc) : option array :=
  match a with
  | Arr1 v =>
      if decide (length v = length row)
      then Some (Arr2 (NdArray (length v) [v; row])) else None
  | Arr2 M =>
      if decide (ncols M = length row)
      then Some (Arr2 (NdArray (ncols M) (rows M ++ [row]))) else None
  end.

(** [np.transpose(a)]: a 1-D array is its own transpose. *)
Definition transpose_nd (a : array) : array :=
  match a with
  | Arr1 v => Arr1 v
  | Arr2 M => Arr2 (transpose M)
  end.

(** [np.matmul(a, b)] on arrays of one or two dimensions: a 1-D argument
    is read as a row on the left and as a column on the right, and the
    dimension so added is dropped from the result. *)
Definition matmul_nd (a b : array) : option value :=
  match a, b with
  | Arr2 A, Arr2 B => M ← matmul A B; Some (Array (Arr2 M))
  | Arr2 A, Arr1 v =>
      if decide (ncols A = length v)
      then Some (Array (Arr1 ((λ i, sumf (ncols A)
                                      (λ k, get A i k * nth k v 0)%Qc)
                               <$> seq 0 (nrows A))))
      else None
  | Arr1 v, Arr2 B =>
      if decide (length v = nrows B)
      then Some (Array (Arr1 ((λ j, sumf (length v)
                                      (λ k, nth k v 0 * get B k j)%Qc)
                               <$> seq 0 (ncols B))))
      else None
  | Arr1 v, Arr1 w => q ← dot v w; Some (Scalar q)
  end.

(** [v - y] for a result [v] of [np.matmul] and a 1-D [y], with
    broadcasting. *)
Definition subtract_1d (v : value) (y : list Qc) : option array :=
  match v with
  | Scalar q => Some (Arr1 ((λ b, q - b)%Qc <$> y))
  | Array (Arr2 P) => E ← subtract P (as_row y); Some (Arr2 E)
  | Array (Arr1 p) =>
      n ← bdim (length p) (length y);
      Some (Arr1 ((λ i, nth (if decide (length p = 1%nat) then 0%nat else i)
                            p 0
                        - nth (if decide (length y = 1%nat) then 0%nat else i)
                            y 0)%Qc
                  <$> seq 0 n))
  end.

(** [k * a] for a scalar [k]. *)
Definition scale_nd (k : Qc) (a : array) : array :=
  match a with
  | Arr1 v => Arr1 (scale1 k v)
  | Arr2 M => Arr2 (scale k M)
  end.

(** [k * v] for a scalar [k] and a result of [np.matmul]. *)
Definition scale_value (k : Qc) (v : value) : value :=
  match v with
  | Scalar q => Scalar (k * q)
  | Array a => Array (scale_nd k a)
  end.

(** [e[0,:]]: raises on a 1-D array and on an array without rows. *)
Definition row0 (e : array) : option (list Qc) :=
  match e with
  | Arr1 _ => None
  | Arr2 E => rows E !! 0%nat
  end.

(** [W -= v], in place: [v] is broadcast against [W], and the result must
    have the shape of [W]. *)
Definition isub (W : ndarray) (v : value) : option ndarray :=
  match v with
  | Scalar q => Some (build (nrows W) (ncols W) (λ i j, get W i j - q)%Qc)
  | Array a =>
      R ← subtract W (match a with Arr1 d => as_row d | Arr2 D => D end);
      if decide (shape R = shape W) then Some R else None
  end.

(** [class Model] *)
Record Model := MkModel {
  y : list Qc;
  n : Z;
  input_size : Z;
  x_matrix : array;
  weights : ndarray
}.

(** [def __init__(self, x, y, n)], with the generator as for the network:
    [random g a b] is what [rng.random((a, b))] returns in the state [g].
    A negative dimension makes [rng.random] raise. *)
Definition init {G} (random : G → nat → nat → ndarray * G) (g : G)
    (x y : list Qc) (n : Z) : option (Model * G) :=
  let input_size := Py.len x in
  let x_matrix := ones (Z.to_nat input_size) in
  x_matrix ← Py.for_ (seqZ 1 n) (λ x_matrix i, vstack x_matrix (power x i))
               x_matrix;
  if decide (n + 1 < 0) then None
  else
    let '(weights, g) := random g 1%nat (Z.to_nat (n + 1)) in
    Some (MkModel y n input_size x_matrix weights, g).

(** Body of the loop over [run], on the weights and the printed lines. *)
Definition run_body (lr : Qc) (self : Model)
    (st : ndarray * list line) (run : Z) : option (ndarray * list line) :=
  let '(weights, out) := st in
  y_pred ← matmul_nd (Arr2 weights) (x_matrix self);
  e ← subtract_1d y_pred (y self);
  out ←
    (if decide (run `mod` 100 = 99) then
       c ← py_div 1 (of_int (2 * input_size self));
       e0 ← row0 e;
       d ← dot e0 e0;
       Some (out ++ [Run run (c * d)%Qc])
     else Some out);
  c ← py_div 1 (of_int (input_size self));
  let grad_y_pred := scale_nd c e in
  m ← matmul_nd grad_y_pred (transpose_nd (x_matrix self));
  weights ← isub weights (scale_value lr m);
  Some (weights, out).

(** Body of the loop over [epoch]. *)
Definition epoch_body (lr : Qc) (t : Z) (self : Model)
    (st : ndarray * list line) (epoch : Z) : option (ndarray * list line) :=
  '(weights, out) ← Py.for_ (Py.range t) (run_body lr self) st;
  Some (weights, out ++ [Epoch (epoch + 1) weights]).

(** [def train(self, num_epochs=5, lr=0.01, t=1000)]: the model with the
    weights as training leaves them, and the lines printed. *)
Definition train (self : Model) (num_epochs : Z) (lr : Qc) (t : Z)
  : option (Model * list line) :=
  '(weights, out) ←
    Py.for_ (Py.range num_epochs) (epoch_body lr t self) (weights self, []);
  Some (MkModel (y self) (n self) (input_size self) (x_matrix self) weights,
        out).

End Regression.

(** [X] is the matrix of the powers 0 to [n] of the entries of [x], one
    power per row. *)
Definition is_powers (x : list Qc) (n : nat) (X : ndarray) : Prop :=
  wf X ∧ shape X = (S n, length x) ∧
  ∀ i j, (i ≤ n)%nat → (j < length x)%nat → get X i j = (nth j x 0 ^ i)%Qc.

(** The value of the polynomial with coefficients [w] (lowest degree
    first) at [x]. *)
Definition poly_eval (w : list Qc) (x : Qc) : Qc :=
  sumf (length w) (λ k, nth k w 0 * x ^ k)%Qc.

(** The third-order example of the notebook on three points:
    [y = 1 + x + 3 x^2 + 4 x^3]. *)
Definition x_cubic : list Qc := of_int <$> [-1; 0; 1; 2].
Definition y_cubic : list Qc := of_int <$> [-1; 1; 9; 47].
Definition w_cubic : ndarray := int_array 4 [[1; 1; 3; 4]].

(** A generator that returns matrices of zeros. *)
Definition random_zero (g : unit) (a b : nat) : ndarray * unit :=
  (build a b (λ _ _, 0%Qc), g).

(** A regression model of order [d >= 1] on the inputs [x]: [x_matrix]
    holds the powers of [x], and there is one target per input. *)
Definition fitted (x : list Qc) (d : nat) (self : Regression.Model) : Prop :=
  ∃ X, Regression.x_matrix self = Regression.Arr2 X ∧ is_powers x d X ∧
       Regression.input_size self = Py.len x ∧
       length (Regression.y self) = length x.

(** The residual of the polynomial with the coefficients of the weight row
    [W] at sample [i]. *)
Definition residual (W : ndarray) (x y : list Qc) (i : nat) : Qc :=
  (poly_eval (nth 0 (rows W) []) (nth i x 0) - nth i y 0)%Qc.

(** The weight row after one gradient step of size [lr] on the halved mean
    squared error. *)
Definition gradient_step (lr : Qc) (x y : list Qc) (W : ndarray) : ndarray :=
  build 1 (ncols W)
    (λ _ j,
       (get W 0 j
        - lr * sumf (length x)
                 (λ i, 1 / of_int (Py.len x) * residual W x y i
                       * nth i x 0 ^ j))%Qc).

(** The halved mean squared error of the weight row [W]. *)
Definition half_mse_poly (x y : list Qc) (W : ndarray) : Qc :=
  (1 / of_int (2 * Py.len x)
   * sumf (length x) (λ i, residual W x y i * residual W x y i))%Qc.

(** The printed lines of [t] runs that start from the weight row [W]: a
    line at each run whose number is 99 modulo 100. *)
Definition run_log (lr : Qc) (x y : list Qc) (W : ndarray) (t : nat)
  : list Regression.line :=
  flat_map
    (λ r, if decide (Z.of_nat r `mod` 100 = 99)
          then [Regression.Run (Z.of_nat r)
                  (half_mse_poly x y (Nat.iter r (gradient_step lr x y) W))]
          else [])
    (seq 0 t).

(** The printed lines of the epoch [e] (counted from 0) of [t] runs. *)
Definition epoch_log (lr : Qc) (x y : list Qc) (W : ndarray) (t e : nat)
  : list Regression.line :=
  run_log lr x y (Nat.iter (e * t) (gradient_step lr x y) W) t
  ++ [Regression.Epoch (Z.of_nat e + 1)
        (Nat.iter (S e * t) (gradient_step lr x y) W)].

(** The run numbers and the epoch numbers among printed lines. *)
Definition run_numbers (out : list Regression.line) : list Z :=
  omap (λ l, match l with Regression.Run r _ => Some r | _ => None end) out.

Definition epoch_numbers (out : list Regression.line) : list Z :=
  omap (λ l, match l with Regression.Epoch e _ => Some e | _ => None end) out.

(** The matrix of the powers 0 to [d] of the entries of [x]. *)
Definition powers (x : list Qc) (d : nat) : ndarray :=
  build (S d) (length x) (λ i j, nth j x 0 ^ i)%Qc.

(** The model of the cubic example with the weights of the exact fit. *)
Definition model_cubic : Regression.Model :=
  Regression.MkModel y_cubic 3 (Py.len x_cubic)
    (Regression.Arr2 (powers x_cubic 3)) w_cubic.

(** ** Python lists and loops: lemmas *)

Section PyLemmas.
Context {A : Type}.
Implicit Types (l : list A) (i : Z) (k : nat).

Lemma index_nat l k : (k < length l)%nat → Py.index l (Z.of_nat k) = Some k.
Proof.
  intros Hk. unfold Py.index, Py.len.
  rewrite bool_decide_eq_true_2 by lia. by rewrite Nat2Z.id.
Qed.

Lemma index_Some l i k :
  Py.index l i = Some k → (k < length l)%nat ∧ (0 ≤ i → i = Z.of_nat k).
Proof.
  unfold Py.index, Py.len. intros H.
  repeat case_bool_decide; simplify_eq; lia.
Qed.

Lemma getitem_nat l k : (k < length l)%nat → Py.getitem l (Z.of_nat k) = l !! k.
Proof. intros Hk. unfold Py.getitem. by rewrite index_nat. Qed.

Lemma getitem_Some_nat l k x :
  Py.getitem l (Z.of_nat k) = Some x → l !! k = Some x.
Proof.
  unfold Py.getitem. intros H.
  destruct (Py.index l (Z.of_nat k)) as [k'|] eqn:E; [|done].
  apply index_Some in E as [_ E]. specialize (E ltac:(lia)).
  by replace k with k' by lia.
Qed.

Lemma setitem_Some_nat l k x l' :
  Py.setitem l (Z.of_nat k) x = Some l' → (k < length l)%nat ∧ l' = <[k:=x]> l.
Proof.
  unfold Py.setitem. intros H.
  destruct (Py.index l (Z.of_nat k)) as [k'|] eqn:E; [|done].
  apply index_Some in E as [? E]. specialize (E ltac:(lia)).
  replace k with k' by lia. by simplify_eq/=.
Qed.

Lemma setitem_nat l k x :
  (k < length l)%nat → Py.setitem l (Z.of_nat k) x = Some (<[k:=x]> l).
Proof. intros Hk. unfold Py.setitem. by rewrite index_nat. Qed.
End PyLemmas.

Lemma for_cons {S A} (x : A) xs (body : S → A → option S) s :
  Py.for_ (x :: xs) body s = s' ← body s x; Py.for_ xs body s'.
Proof. done. Qed.

Lemma for_app {S A} (xs ys : list A) (body : S → A → option S) s :
  Py.for_ (xs ++ ys) body s = s' ← Py.for_ xs body s; Py.for_ ys body s'.
Proof.
  revert s. induction xs as [|x xs IH]; intros s; simpl; [done|].
  destruct (body s x); simpl; [apply IH|done].
Qed.

Lemma range_S (n : nat) :
  Py.range (Z.of_nat (S n)) = Py.range (Z.of_nat n) ++ [Z.of_nat n].
Proof. unfold Py.range. by rewrite seqZ_S. Qed.

Lemma range_nonpos n : n ≤ 0 → Py.range n = [].
Proof. apply seqZ_nil. Qed.

(** ** Arrays: lemmas *)

Lemma nrows_build r c f : nrows (build r c f) = r.
Proof. unfold nrows, build; simpl. by rewrite length_fmap, length_seq. Qed.

Lemma ncols_build r c f : ncols (build r c f) = c.
Proof. done. Qed.

Lemma shape_build r c f : shape (build r c f) = (r, c).
Proof. unfold shape. by rewrite nrows_build. Qed.

Lemma wf_build r c f : wf (build r c f).
Proof.
  unfold wf, build; simpl. apply Forall_fmap, Forall_forall.
  intros i _; simpl. by rewrite length_fmap, length_seq.
Qed.

Lemma nth_fmap_seq {B} (g : nat → B) d n i :
  (i < n)%nat → nth i (g <$> seq 0 n) d = g i.
Proof.
  intros Hi. apply nth_lookup_Some.
  rewrite list_lookup_fmap, lookup_seq_lt by done. done.
Qed.

Lemma get_build r c f i j :
  (i < r)%nat → (j < c)%nat → get (build r c f) i j = f i j.
Proof.
  intros Hi Hj. unfold get, build; simpl.
  rewrite (nth_fmap_seq (λ i, f i <$> seq 0 c)) by done.
  by rewrite nth_fmap_seq.
Qed.

Lemma fmap_seq_ext {B} (g h : nat → B) n :
  (∀ i, (i < n)%nat → g i = h i) → g <$> seq 0 n = h <$> seq 0 n.
Proof.
  intros H. apply list_fmap_ext. intros i x Hx.
  apply lookup_seq in Hx as [-> ?]. by apply H.
Qed.

Lemma build_ext r c f g :
  (∀ i j, (i < r)%nat → (j < c)%nat → f i j = g i j) → build r c f = build r c g.
Proof.
  intros H. unfold build. f_equal.
  apply fmap_seq_ext. intros i Hi. apply fmap_seq_ext. intros j Hj. by apply H.
Qed.

Lemma fmap_seq_nth {B} (l : list B) d :
  (λ i, nth i l d) <$> seq 0 (length l) = l.
Proof.
  apply list_eq. intros i. rewrite list_lookup_fmap.
  destruct (decide (i < length l)%nat) as [Hi|Hi].
  - rewrite lookup_seq_lt by done. simpl.
    destruct (lookup_lt_is_Some_2 l i Hi) as [x Hx].
    by rewrite Hx, (nth_lookup_Some _ _ _ _ Hx).
  - rewrite lookup_seq_ge, lookup_ge_None_2 by lia. done.
Qed.

Lemma build_get A : wf A → build (nrows A) (ncols A) (get A) = A.
Proof.
  destruct A as [c rs]. unfold wf, build, nrows, get; simpl. intros Hwf. f_equal.
  rewrite <-(fmap_seq_nth rs []) at 2.
  apply fmap_seq_ext. intros i Hi.
  assert (length (nth i rs []) = c) as <-.
  { destruct (lookup_lt_is_Some_2 rs i Hi) as [x Hx].
    rewrite (nth_lookup_Some _ _ _ _ Hx).
    by eapply (Forall_lookup_1 _ _ _ _ Hwf). }
  apply fmap_seq_nth.
Qed.

Lemma ndarray_ext A B :
  wf A → wf B → shape A = shape B →
  (∀ i j, (i < nrows A)%nat → (j < ncols A)%nat → get A i j = get B i j) →
  A = B.
Proof.
  intros HA HB Hs H. rewrite <-(build_get A), <-(build_get B) by done.
  unfold shape in Hs. simplify_eq. rewrite <-H0, <-H1. by apply build_ext.
Qed.

Lemma bdim_same a : bdim a a = Some a.
Proof. unfold bdim. by rewrite decide_True. Qed.

Lemma bget_in A i j :
  (i < nrows A)%nat → (j < ncols A)%nat → bget A i j = get A i j.
Proof.
  intros Hi Hj. unfold bget. repeat case_decide; f_equal; lia.
Qed.

Lemma broadcast_same f A B :
  nrows A = nrows B → ncols A = ncols B →
  broadcast f A B
  = Some (build (nrows A) (ncols A) (λ i j, f (get A i j) (get B i j))).
Proof.
  intros Hr Hc. unfold broadcast. rewrite <-Hr, <-Hc, !bdim_same. simpl.
  f_equal. apply build_ext. intros i j Hi Hj.
  rewrite !bget_in; [done|lia..].
Qed.

Lemma broadcast_shape f A B C :
  broadcast f A B = Some C → wf C.
Proof.
  unfold broadcast. intros H. simplify_option_eq. apply wf_build.
Qed.

Lemma matmul_Some A B C :
  matmul A B = Some C →
  ncols A = nrows B ∧
  C = build (nrows A) (ncols B)
        (λ i j, sumf (ncols A) (λ k, (get A i k * get B k j)%Qc)).
Proof. unfold matmul. intros H. case_decide; by simplify_eq. Qed.

Lemma sumf_ext n f g : (∀ k, (k < n)%nat → f k = g k) → sumf n f = sumf n g.
Proof.
  unfold sumf. intros H.
  assert (∀ m, (m <= n)%nat → ∀ o, (o + m = n)%nat →
    foldr (λ k acc, (f k + acc)%Qc) 0%Qc (seq o m)
    = foldr (λ k acc, (g k + acc)%Qc) 0%Qc (seq o m)) as G.
  { induction m as [|m IH]; intros Hm o Ho; simpl; [done|].
    rewrite H by lia. f_equal. apply IH; lia. }
  apply (G n); lia.
Qed.

(** ** The forward pass *)

Lemma relu_Some A :
  relu A = Some (build (nrows A) (ncols A) (λ i j, Qcmax (get A i j) 0)).
Proof.
  unfold relu, maximum, zeros, shape; simpl.
  rewrite broadcast_same by (by rewrite ?nrows_build).
  f_equal. apply build_ext. intros i j Hi Hj. by rewrite get_build.
Qed.

Lemma relu_layer_output X W b :
  relu (layer_output true X W b) = Some (layer_output false X W b).
Proof.
  rewrite relu_Some. f_equal. unfold layer_output.
  rewrite nrows_build, ncols_build.
  apply build_ext. intros i j Hi Hj. by rewrite get_build.
Qed.

Lemma predict_body_shaped self X c (k : nat) W b :
  weights self !! k = Some W → biases self !! k = Some b →
  ncols X = nrows W → shape b = (1%nat, ncols W) →
  let Y := layer_output ((Z.of_nat k =? Py.len (layers self) - 2)
                         && Py.is_small_int (Z.of_nat k)) X W b in
  predict_body self (X, c) (Z.of_nat k) = Some (Y, (λ l, l ++ [Y]) <$> c).
Proof.
  intros HW Hb HX Hsb Y. subst Y. unfold shape in Hsb. simplify_eq.
  unfold predict_body.
  rewrite !getitem_nat by (by eapply lookup_lt_Some).
  rewrite Hb, HW; simpl.
  unfold matmul. rewrite decide_True by done. simpl.
  unfold add. rewrite broadcast_same; cycle 1.
  { unfold tile. rewrite !nrows_build. lia. }
  { by rewrite !ncols_build. }
  simpl. rewrite ?nrows_build.
  assert (build (nrows X) (ncols W)
            (λ i j,
               (get (build (nrows X) (ncols W)
                       (λ i0 j0,
                          sumf (ncols X) (λ k0, get X i0 k0 * get W k0 j0)))
                  i j
                + get (tile b (nrows X)) i j)%Qc)
          = layer_output true X W b) as ->.
  { unfold layer_output. apply build_ext. intros i j Hi Hj.
    rewrite get_build by done. f_equal.
    unfold tile. rewrite get_build by (rewrite ?H; lia).
    rewrite H. by rewrite Nat.mod_1_r. }
  unfold Py.is_not.
  destruct ((Z.of_nat k =? Py.len (layers self) - 2)
            && Py.is_small_int (Z.of_nat k)); simpl; [done|].
  by rewrite relu_layer_output.
Qed.

Lemma shaped_length ls Ws bs :
  shaped ls Ws bs →
  length bs = length Ws ∧ (ls ≠ [] → length ls = S (length Ws)) ∧
  (ls = [] → Ws = []).
Proof.
  revert ls bs. induction Ws as [|W Ws IH]; intros ls [|b bs]; simpl; try done.
  - intros H. split; [done|]. split; [|done]. destruct ls; [done|]. simpl in *. lia.
  - destruct ls as [|a ls]; [done|]. intros (_ & _ & _ & _ & Hne & H).
    apply IH in H as (-> & H & _). specialize (H Hne). simpl. rewrite H. done.
Qed.

Lemma predict_loop self : ∀ Ws bs ls (k : nat) X c,
  drop k (weights self) = Ws → drop k (biases self) = bs →
  drop k (layers self) = ls → shaped ls Ws bs →
  head ls = Some (ncols X) →
  Py.for_ (seqZ (Z.of_nat k) (Py.len Ws)) (predict_body self) (X, c)
  = Some (default X
            (last (transitions
                     (Py.is_small_int (Py.len (layers self) - 2)) X Ws bs)),
          (λ l, l ++ transitions
                      (Py.is_small_int (Py.len (layers self) - 2)) X Ws bs)
            <$> c).
Proof.
  set (p := Py.is_small_int (Py.len (layers self) - 2)).
  induction Ws as [|W Ws IH]; intros bs ls k X c HWs Hbs Hls Hsh HX.
  - simpl. destruct c; simpl; by rewrite ?app_nil_r.
  - destruct bs as [|b bs]; [done|]. destruct ls as [|a ls]; [done|].
    simpl in Hsh. destruct Hsh as (HwW & HsW & HwB & HsB & Hne & Hsh).
    simpl in HX. simplify_eq.
    unfold Py.len. rewrite seqZ_cons by (simpl; lia). rewrite for_cons.
    assert (weights self !! k = Some W) as HkW.
    { rewrite <-(Nat.add_0_r k), <-lookup_drop, HWs. done. }
    assert (biases self !! k = Some b) as Hkb.
    { rewrite <-(Nat.add_0_r k), <-lookup_drop, Hbs. done. }
    unfold shape in HsW, HsB. simplify_eq.
    erewrite predict_body_shaped; [|done|done|congruence|unfold shape; congruence].
    cbn [mbind option_bind].
    assert (Py.len (layers self) - 2 = Z.of_nat k + Z.of_nat (length Ws)) as HL.
    { pose proof (shaped_length _ _ _ Hsh) as (_ & Hl & _). specialize (Hl Hne).
      assert (length (drop k (layers self)) = S (length ls)) as Hd
        by (by rewrite Hls).
      rewrite length_drop in Hd. unfold Py.len. lia. }
    assert ((Z.of_nat k =? Py.len (layers self) - 2)
            && Py.is_small_int (Z.of_nat k)
            = match Ws with [] => p | _ => false end) as ->.
    { destruct Ws; simpl in HL.
      - subst p. rewrite HL, Z.add_0_r, Z.eqb_refl. done.
      - apply andb_false_iff. left. apply Z.eqb_neq. lia. }
    set (Y := layer_output _ X W b).
    replace (Z.succ (Z.of_nat k)) with (Z.of_nat (S k)) by lia.
    replace (Z.pred (Z.of_nat (length (W :: Ws)))) with (Py.len Ws)
      by (unfold Py.len; simpl; lia).
    rewrite (IH bs ls (S k) Y); first last.
    + destruct ls as [|a' ls]; [done|]. simpl. f_equal.
      subst Y. unfold layer_output. simpl in *. done.
    + done.
    + replace (S k) with (k + 1)%nat by lia. by rewrite <-drop_drop, Hls.
    + replace (S k) with (k + 1)%nat by lia. by rewrite <-drop_drop, Hbs.
    + replace (S k) with (k + 1)%nat by lia. by rewrite <-drop_drop, HWs.
    + change (transitions p X (W :: Ws) (b :: bs))
        with (Y :: transitions p Y Ws bs).
      f_equal. f_equal.
      * rewrite last_cons. by destruct (last (transitions p Y Ws bs)).
      * destruct c; simpl; [|done]. by rewrite <-app_assoc.
Qed.

Lemma transitions_length plain X Ws bs :
  length bs = length Ws → length (transitions plain X Ws bs) = length Ws.
Proof.
  revert X bs. induction Ws as [|W Ws IH]; intros X [|b bs] H; simplify_eq/=; [done|].
  by rewrite IH.
Qed.

Lemma transitions_lookup plain X Ws bs i W b :
  length bs = length Ws → Ws !! i = Some W → bs !! i = Some b →
  transitions plain X Ws bs !! i
  = Some (layer_output (bool_decide (S i = length Ws) && plain)
            (layer_input X (transitions plain X Ws bs) i) W b).
Proof.
  revert X bs i. induction Ws as [|W0 Ws IH]; intros X [|b0 bs] i Hl HW Hb;
    simplify_eq/=.
  destruct i as [|i]; simplify_eq/=.
  - by destruct Ws.
  - rewrite (IH _ bs i) by done. do 2 f_equal.
    + f_equal. apply bool_decide_ext. lia.
    + destruct i as [|i]; simpl; [done|].
      match goal with
      | |- default _ (?l !! i) = _ => assert (is_Some (l !! i)) as [y ->]
      end; [|done].
      apply lookup_lt_is_Some_2. rewrite transitions_length by done.
      apply lookup_lt_Some in HW. lia.
Qed.

Lemma transitions_shape plain : ∀ Ws bs ls X,
  shaped ls Ws bs → head ls = Some (ncols X) →
  shape (default X (last (transitions plain X Ws bs)))
  = (nrows X, default 0%nat (last ls)) ∧
  (wf X → wf (default X (last (transitions plain X Ws bs)))).
Proof.
  induction Ws as [|W Ws IH]; intros [|b bs] ls X Hsh HX; try done.
  - simpl in *. destruct ls as [|a [|??]]; simplify_eq/=; [|lia]. done.
  - destruct ls as [|a ls]; [done|]. simpl in Hsh.
    destruct Hsh as (_ & HsW & _ & _ & Hne & Hsh). simplify_eq/=.
    set (Y := layer_output _ X W b).
    destruct (IH bs ls Y Hsh) as [IH1 IH2].
    { destruct ls; [done|]. unfold shape in HsW. by simplify_eq/=. }
    rewrite last_cons.
    assert (default X match last (transitions plain Y Ws bs) with
                      | Some y => Some y | None => Some Y end
            = default Y (last (transitions plain Y Ws bs))) as ->
      by (by destruct (last (transitions plain Y Ws bs))).
    rewrite IH1. split.
    + f_equal; [apply nrows_build|]. rewrite last_cons.
      destruct ls as [|a' ls']; [done|]. destruct (last (a' :: ls')) eqn:E; [done|].
      by apply last_None in E.
    + intros _. apply IH2, wf_build.
Qed.

Lemma predict_body_appends self X c i Y c' :
  predict_body self (X, Some c) i = Some (Y, c') →
  c' = Some (c ++ [Y]) ∧
  (Py.is_not i (Py.len (layers self) - 2) = true → ∃ P, relu P = Some Y).
Proof.
  unfold predict_body. intros H.
  destruct (Py.is_not i (Py.len (layers self) - 2)); simplify_option_eq; eauto.
  split; [done|]. intros ?; done.
Qed.

Lemma predict_cache_loop self : ∀ xs X c Y c',
  Py.for_ xs (predict_body self) (X, Some c) = Some (Y, c') →
  ∃ new, c' = Some (c ++ new) ∧ length new = length xs ∧
         (xs ≠ [] → last new = Some Y) ∧ (xs = [] → Y = X) ∧
         Forall2 (λ i A, Py.is_not i (Py.len (layers self) - 2) = true →
                         ∃ P, relu P = Some A) xs new.
Proof.
  induction xs as [|i xs IH]; intros X c Y c' H.
  - simplify_eq/=. exists []. by rewrite app_nil_r.
  - rewrite for_cons in H.
    destruct (predict_body self (X, Some c) i) as [[X1 c1]|] eqn:E; [|done].
    apply predict_body_appends in E as [-> Hrelu]. simpl in H.
    apply IH in H as (new & -> & Hlen & Hlast & Hnil & Hall).
    exists (X1 :: new). rewrite <-app_assoc. split; [done|].
    split; [simpl; lia|]. split; [|split; [done|by constructor]].
    intros _. rewrite last_cons. destruct xs as [|i' xs].
    + destruct new; [|done]. simpl. by rewrite Hnil.
    + by rewrite Hlast.
Qed.

Lemma initialized_length self :
  initialized self → layers self ≠ [] →
  length (layers self) = S (length (weights self)) ∧
  length (biases self) = length (weights self).
Proof.
  intros Hinit Hne. destruct (shaped_length _ _ _ Hinit) as (Hlb & HL & _).
  by split; [apply HL|].
Qed.

Lemma predict_Some self input save_activated :
  initialized self → head (layers self) = Some (ncols input) →
  let acts :=
    transitions (Py.is_small_int (Py.len (layers self) - 2)) input
      (weights self) (biases self) in
  predict self input save_activated
  = Some (default input (last acts), (λ l, l ++ acts) <$> save_activated).
Proof.
  intros Hinit Hhead acts. subst acts.
  destruct (initialized_length self Hinit) as [HL _];
    [by destruct (layers self)|].
  unfold predict, Py.range.
  replace (Py.len (layers self) - 1) with (Py.len (weights self))
    by (unfold Py.len; lia).
  by apply (predict_loop self _ _ (layers self) 0%nat).
Qed.

(** *** Reading a successful run of [train] backwards *)

Lemma train_run_inv l lr inputs outputs self self' r :
  train_run l lr inputs outputs self = Some (self', r) →
  let N := Z.of_nat (nrows inputs) in
  let L := Py.len (layers self) in
  predict self inputs (Some []) = Some (y_hat r, Some (activated r)) ∧
  subtract (y_hat r) outputs = Some (errors r) ∧
  (∃ e0 d, column0 (errors r) = Some e0 ∧ dot e0 e0 = Some d ∧
     loss r = (1 / 2 * d ^ 2)%Qc) ∧
  Py.for_ (weights self) s_body 0%Qc = Some (s r) ∧
  (∃ inv, py_div 1 (of_int N) = Some inv ∧
     objective r = (inv * loss r + l / 2 * s r)%Qc) ∧
  (∃ zp0,
     Py.setitem (activated r) (Py.len (activated r) - 1) (errors r) = Some zp0 ∧
     Py.for_ (Py.range (L - 2)) (z_primes_body self (activated r)) zp0
     = Some (z_primes r)) ∧
  (∃ z0 d0 ds0,
     Py.getitem (z_primes r) 0 = Some z0 ∧
     matmul (transpose inputs) z0 = Some d0 ∧
     Py.setitem (weights self) 0 d0 = Some ds0 ∧
     Py.for_ (Py.range (L - 3)) (deltas_body (activated r) (z_primes r)) ds0
     = Some (deltas r)) ∧
  (∃ ws bs,
     Py.for_ (Py.range (Py.len (weights self) - 1))
       (update_body l lr N (deltas r) (z_primes r)) (weights self, biases self)
     = Some (ws, bs) ∧
     self' = MkModel (layers self) ws bs).
Proof.
  unfold train_run. intros H.
  destruct (predict self inputs (Some [])) as [[yh [acts|]]|] eqn:Hp;
    simplify_option_eq.
  destruct H11 as [ws bs]. simplify_eq/=.
  repeat match goal with
         | |- _ ∧ _ => split
         | |- ∃ _, _ => eexists
         end; done.
Qed.

(** ** The backward pass

    *** The loop "compute z primes" *)

Lemma z_primes_body_inv self acts zp zp' (n j : nat) :
  Py.len (layers self) = Z.of_nat n + 1 → length acts = n → length zp = n →
  (j + 2 ≤ n)%nat →
  z_primes_body self acts zp (Z.of_nat j) = Some zp' →
  ∃ A Z W M Zk,
    acts !! (n - 2 - j)%nat = Some A ∧ zp !! (n - 1 - j)%nat = Some Z ∧
    weights self !! (n - 1 - j)%nat = Some W ∧
    matmul Z (transpose W) = Some M ∧
    multiply M (set_positive_to_one A) = Some Zk ∧
    zp' = <[(n - 2 - j)%nat := Zk]> zp.
Proof.
  intros HL Ha Hz Hj. unfold z_primes_body, Py.len in *. rewrite HL, Ha.
  replace (Z.of_nat n + 1 - 3 - Z.of_nat j) with (Z.of_nat (n - 2 - j)) by lia.
  replace (Z.of_nat n - 1 - Z.of_nat j) with (Z.of_nat (n - 1 - j)) by lia.
  replace (Z.of_nat n + 1 - 2 - Z.of_nat j) with (Z.of_nat (n - 1 - j)) by lia.
  replace (Z.of_nat n - 2 - Z.of_nat j) with (Z.of_nat (n - 2 - j)) by lia.
  intros H.
  destruct (Py.getitem acts _) as [A|] eqn:EA; [|done].
  destruct (Py.getitem zp _) as [Z|] eqn:EZ; [|done].
  destruct (Py.getitem (weights self) _) as [W|] eqn:EW; [|done].
  simpl in H.
  destruct (matmul Z (transpose W)) as [M|] eqn:EM; [|done].
  simpl in H.
  destruct (multiply M (set_positive_to_one A)) as [Zk|] eqn:EZk; [|done].
  simpl in H. apply setitem_Some_nat in H as [_ ->].
  apply getitem_Some_nat in EA, EZ, EW.
  by exists A, Z, W, M, Zk.
Qed.

Lemma z_primes_loop self acts (n : nat) zp0 :
  Py.len (layers self) = Z.of_nat n + 1 → length acts = n → length zp0 = n →
  ∀ (m : nat) zp, (m + 1 ≤ n)%nat →
  Py.for_ (Py.range (Z.of_nat m)) (z_primes_body self acts) zp0 = Some zp →
  length zp = n ∧
  (∀ k, (k + m + 1 < n ∨ n ≤ k + 1)%nat → zp !! k = zp0 !! k) ∧
  (∀ k, (n ≤ k + m + 1)%nat → (k + 1 < n)%nat →
        z_prime_step set_positive_to_one self acts zp k).
Proof.
  intros HL Ha Hz0. induction m as [|m IH]; intros zp Hm H.
  - rewrite range_nonpos in H by done. simpl in H. injection H as <-.
    split; [done|]. split; [done|]. intros; lia.
  - rewrite range_S, for_app in H.
    destruct (Py.for_ (Py.range (Z.of_nat m)) _ zp0) as [zpm|] eqn:E; [|done].
    simpl in H.
    destruct (z_primes_body self acts zpm (Z.of_nat m)) as [zp'|] eqn:Eb;
      [|done]. simpl in H. injection H as <-.
    destruct (IH zpm) as (Hlen & Hsame & Hstep); [lia|done|].
    eapply z_primes_body_inv in Eb
      as (A & Z & W & M & Zk & HA & HZ & HW & HM & HZk & ->); [|done..|lia].
    split; [by rewrite length_insert|]. split.
    + intros k Hk. rewrite list_lookup_insert_ne by lia. apply Hsame. lia.
    + intros k Hk1 Hk2. destruct (decide (k = n - 2 - m)%nat) as [->|Hne].
      * exists A, Z, W, M, Zk.
        replace (S (n - 2 - m)) with (n - 1 - m)%nat by lia.
        rewrite list_lookup_insert_ne by lia.
        rewrite list_lookup_insert_eq by lia. done.
      * destruct (Hstep k) as (A' & Z' & W' & M' & Zk' & ?); [lia..|].
        exists A', Z', W', M', Zk'.
        rewrite !list_lookup_insert_ne by lia. done.
Qed.

(** *** Non-negative activations and the derivative of ReLU *)

Lemma Qcmax_0_nonneg x : (0 ≤ Qcmax x 0)%Qc.
Proof.
  unfold Qcmax. destruct (Qclt_le_dec x 0); [apply Qcle_refl|done].
Qed.

Lemma relu_nonneg P A : relu P = Some A → nonneg A.
Proof.
  rewrite relu_Some. intros [= <-] i j Hi Hj.
  rewrite nrows_build in Hi. simpl in Hj.
  rewrite get_build by done. apply Qcmax_0_nonneg.
Qed.

Lemma set_positive_to_one_nonneg A :
  nonneg A → set_positive_to_one A = relu_derivative A.
Proof.
  intros HA. apply build_ext. intros i j Hi Hj.
  destruct (Qclt_le_dec 0 (get A i j)) as [|Hle]; [done|].
  apply Qcle_antisym; [done|by apply HA].
Qed.

Lemma predict_activated self input pred acts :
  predict self input (Some []) = Some (pred, Some acts) →
  length acts = (length (layers self) - 1)%nat ∧
  ((2 ≤ length (layers self))%nat → last acts = Some pred) ∧
  (∀ k A, (k + 2 < length (layers self))%nat → acts !! k = Some A → nonneg A).
Proof.
  unfold predict. intros H.
  apply predict_cache_loop in H as (new & [= ->] & Hlen & Hlast & _ & Hall).
  unfold Py.range, Py.len in *. rewrite length_seqZ in Hlen.
  split; [lia|]. split.
  - intros HL. apply Hlast. intros E.
    apply (f_equal length) in E. rewrite length_seqZ in E. simpl in E. lia.
  - intros k A Hk HA.
    destruct (Forall2_lookup_r _ _ _ _ _ Hall HA) as (i & Hi & HP).
    apply lookup_seqZ in Hi as [-> _].
    destruct HP as [P HP]; [|by eapply relu_nonneg].
    unfold Py.is_not. apply negb_true_iff, andb_false_iff. left.
    apply Z.eqb_neq. lia.
Qed.

(** *** The loops "compute deltas" and "update weights and biases" *)

Lemma deltas_loop acts zp ds0 :
  ∀ (m : nat) ds,
  Py.for_ (Py.range (Z.of_nat m)) (deltas_body acts zp) ds0 = Some ds →
  length ds = length ds0 ∧
  (∀ k, (k = 0 ∨ m < k)%nat → ds !! k = ds0 !! k) ∧
  (∀ k, (1 ≤ k ≤ m)%nat → delta_step acts zp ds k).
Proof.
  induction m as [|m IH]; intros ds H.
  - rewrite range_nonpos in H by done. simpl in H. injection H as <-.
    split; [done|]. split; [done|]. intros; lia.
  - rewrite range_S, for_app in H.
    destruct (Py.for_ (Py.range (Z.of_nat m)) _ ds0) as [dsm|] eqn:E; [|done].
    simpl in H.
    destruct (deltas_body acts zp dsm (Z.of_nat m)) as [ds'|] eqn:Eb; [|done].
    simpl in H. injection H as <-.
    destruct (IH dsm) as (Hlen & Hsame & Hstep); [done|].
    unfold deltas_body in Eb.
    replace (Z.of_nat m + 1) with (Z.of_nat (S m)) in Eb by lia.
    destruct (Py.getitem acts _) as [A|] eqn:EA; [|done].
    destruct (Py.getitem zp _) as [Z|] eqn:EZ; [|done]. simpl in Eb.
    destruct (matmul (transpose A) Z) as [D|] eqn:ED; [|done]. simpl in Eb.
    apply setitem_Some_nat in Eb as [Hlt ->].
    apply getitem_Some_nat in EA, EZ.
    split; [by rewrite length_insert|]. split.
    + intros k Hk. rewrite list_lookup_insert_ne by lia. apply Hsame. lia.
    + intros k Hk. destruct (decide (k = S m)) as [->|Hne].
      * exists A, Z, D. by rewrite list_lookup_insert_eq.
      * destruct (Hstep k) as (A' & Z' & D' & ?); [lia|].
        exists A', Z', D'. by rewrite list_lookup_insert_ne.
Qed.

Lemma update_loop l lr N ds zp self :
  ∀ (m : nat) ws bs,
  Py.for_ (Py.range (Z.of_nat m)) (update_body l lr N ds zp)
    (weights self, biases self) = Some (ws, bs) →
  length ws = length (weights self) ∧ length bs = length (biases self) ∧
  (∀ k, (m ≤ k)%nat →
        ws !! k = weights self !! k ∧ bs !! k = biases self !! k) ∧
  (∀ k, (k < m)%nat → updated l lr N ds zp self ws bs k).
Proof.
  induction m as [|m IH]; intros ws bs H.
  - rewrite range_nonpos in H by done. simpl in H. injection H as <- <-.
    split; [done|]. split; [done|]. split; [done|]. intros; lia.
  - rewrite range_S, for_app in H.
    destruct (Py.for_ (Py.range (Z.of_nat m)) _ _) as [[wsm bsm]|] eqn:E;
      [|done].
    cbn [mbind option_bind Py.for_] in H.
    destruct (update_body l lr N ds zp (wsm, bsm) (Z.of_nat m)) as [[ws' bs']|]
      eqn:Eb; [|done].
    simpl in H. injection H as <- <-.
    destruct (IH wsm bsm) as (Hlw & Hlb & Hsame & Hup); [done|].
    unfold update_body in Eb.
    destruct (Py.getitem wsm _) as [W|] eqn:EW; [|done]. simpl in Eb.
    destruct (py_div 1 (of_int N)) as [inv|] eqn:Einv; [|done]. simpl in Eb.
    destruct (Py.getitem ds _) as [d|] eqn:Ed; [|done]. simpl in Eb.
    destruct (add _ _) as [g|] eqn:Eg; [|done]. simpl in Eb.
    destruct (subtract W _) as [W'|] eqn:EW'; [|done]. simpl in Eb.
    destruct (Py.setitem wsm _ _) as [ws1|] eqn:Ews; [|done]. simpl in Eb.
    destruct (Py.getitem bsm _) as [b|] eqn:Ebm; [|done]. simpl in Eb.
    destruct (py_div lr (of_int N)) as [kk|] eqn:Ekk; [|done]. simpl in Eb.
    destruct (Py.getitem zp _) as [z|] eqn:Ez; [|done]. simpl in Eb.
    destruct (subtract b _) as [b'|] eqn:Eb'; [|done]. simpl in Eb.
    destruct (Py.setitem bsm _ _) as [bs1|] eqn:Ebs; [|done]. simpl in Eb.
    injection Eb as <- <-.
    apply setitem_Some_nat in Ews as [Hltw ->], Ebs as [Hltb ->].
    apply getitem_Some_nat in EW, Ed, Ebm, Ez.
    destruct (Hsame m) as [HWm Hbm]; [done|]. rewrite HWm in EW. rewrite Hbm in Ebm.
    split; [by rewrite length_insert|]. split; [by rewrite length_insert|]. split.
    + intros k Hk. rewrite !list_lookup_insert_ne by lia. apply Hsame. lia.
    + intros k Hk. destruct (decide (k = m)) as [->|Hne].
      * exists W, d, inv, g, W', b, kk, z, b'.
        rewrite !list_lookup_insert_eq by done. done.
      * destruct (Hup k) as (W0 & d0 & inv0 & g0 & W0' & b0 & kk0 & z0 & b0' & ?);
          [lia|].
        exists W0, d0, inv0, g0, W0', b0, kk0, z0, b0'.
        rewrite !list_lookup_insert_ne by done. done.
Qed.

(** *** What a successful run of [train] has computed *)

Lemma range_pred (n : nat) :
  Py.range (Z.of_nat n - 1) = Py.range (Z.of_nat (n - 1)).
Proof.
  destruct n as [|n]; [done|]. f_equal. lia.
Qed.

(** The error signals: the last one is [errors], every earlier one obeys
    the backward recurrence; the hidden activations are non-negative, so
    the copy with its positive entries set to 1 is the derivative of
    ReLU. *)
Lemma train_run_backward l lr inputs outputs self self' r :
  train_run l lr inputs outputs self = Some (self', r) →
  ∃ n : nat,
    length (layers self) = S (S n) ∧ length (activated r) = S n ∧
    last (activated r) = Some (y_hat r) ∧
    length (z_primes r) = S n ∧ z_primes r !! n = Some (errors r) ∧
    (∀ k A, (k < n)%nat → activated r !! k = Some A → nonneg A) ∧
    (∀ k, (k < n)%nat →
          z_prime_step set_positive_to_one self (activated r) (z_primes r) k) ∧
    (∀ k, (k < n)%nat →
          z_prime_step relu_derivative self (activated r) (z_primes r) k).
Proof.
  intros H. apply train_run_inv in H as (Hp & _ & _ & _ & _ & Hz & _).
  destruct Hz as (zp0 & Hset & Hloop).
  apply predict_activated in Hp as (Hlen & Hlast & Hnn).
  unfold Py.setitem in Hset.
  destruct (Py.index (activated r) _) as [i|] eqn:Ei; [|done].
  simpl in Hset. injection Hset as <-.
  destruct (length (activated r)) as [|n] eqn:En.
  { unfold Py.index, Py.len in Ei. rewrite En in Ei.
    repeat case_bool_decide; simplify_eq; lia. }
  exists n.
  assert (i = n) as ->.
  { apply index_Some in Ei as [_ Ei]. unfold Py.len in Ei. lia. }
  assert (length (layers self) = S (S n)) as HL by lia.
  destruct (z_primes_loop self (activated r) (S n) (<[n:=errors r]> (activated r)))
    with (m := n) (zp := z_primes r) as (Hzl & Hsame & Hstep).
  { unfold Py.len. lia. }
  { done. }
  { by rewrite length_insert. }
  { lia. }
  { rewrite <-Hloop. do 2 f_equal. unfold Py.len. lia. }
  split; [done|]. split; [done|]. split; [apply Hlast; lia|].
  split; [done|]. split.
  { rewrite Hsame by lia. apply list_lookup_insert_eq. lia. }
  split.
  { intros k A Hk. apply Hnn. lia. }
  split.
  { intros k Hk. apply Hstep; lia. }
  intros k Hk.
  destruct (Hstep k) as (A & Z & W & M & Zk & HA & HZ & HW & HM & HZk & Hk');
    [lia..|].
  exists A, Z, W, M, Zk. rewrite <-set_positive_to_one_nonneg; [done|].
  eapply Hnn; [|done]. lia.
Qed.

(** The gradients: entry 0 is the transposed input batch times the first
    error signal, the entries [k] with [1 <= k <= len(layers) - 3] are the
    transposed activation [k-1] times the error signal [k], and any later
    entry is still the weight matrix it was initialised with. *)
Lemma train_run_deltas l lr inputs outputs self self' r :
  train_run l lr inputs outputs self = Some (self', r) →
  length (deltas r) = length (weights self) ∧
  (∃ z0 d0, z_primes r !! 0%nat = Some z0 ∧
            matmul (transpose inputs) z0 = Some d0 ∧
            deltas r !! 0%nat = Some d0) ∧
  (∀ k, (1 ≤ k)%nat → (k + 2 < length (layers self))%nat →
        delta_step (activated r) (z_primes r) (deltas r) k) ∧
  (∀ k, (1 ≤ k)%nat → (length (layers self) ≤ k + 2)%nat →
        deltas r !! k = weights self !! k).
Proof.
  intros H. destruct (train_run_backward _ _ _ _ _ _ _ H) as (n & HL & _).
  apply train_run_inv in H as (_ & _ & _ & _ & _ & _ & Hd & _).
  destruct Hd as (z0 & d0 & ds0 & Hz0 & Hd0 & Hset & Hloop).
  apply (getitem_Some_nat _ 0%nat) in Hz0.
  apply (setitem_Some_nat _ 0%nat) in Hset as [Hlt ->].
  unfold Py.len in Hloop. rewrite HL in Hloop.
  replace (Z.of_nat (S (S n)) - 3) with (Z.of_nat n - 1) in Hloop by lia.
  rewrite range_pred in Hloop.
  apply deltas_loop in Hloop as (Hlen & Hsame & Hstep).
  rewrite length_insert in Hlen.
  split; [done|]. split.
  { exists z0, d0. rewrite Hsame by lia. by rewrite list_lookup_insert_eq. }
  split.
  - intros k Hk1 Hk2. apply Hstep. lia.
  - intros k Hk1 Hk2. rewrite Hsame by lia. apply list_lookup_insert_ne. lia.
Qed.

(** The update: every weight matrix and bias but the last of
    [self.weights] gets the decay and gradient step, everything from the
    last index of [self.weights] on is left alone. *)
Lemma train_run_update l lr inputs outputs self self' r :
  train_run l lr inputs outputs self = Some (self', r) →
  layers self' = layers self ∧
  length (weights self') = length (weights self) ∧
  length (biases self') = length (biases self) ∧
  (∀ k, (length (weights self) ≤ k + 1)%nat →
        weights self' !! k = weights self !! k ∧
        biases self' !! k = biases self !! k) ∧
  (∀ k, (k + 1 < length (weights self))%nat →
        updated l lr (Z.of_nat (nrows inputs)) (deltas r) (z_primes r) self
          (weights self') (biases self') k).
Proof.
  intros H. apply train_run_inv in H as (_ & _ & _ & _ & _ & _ & _ & Hu).
  destruct Hu as (ws & bs & Hloop & ->). simpl.
  unfold Py.len in Hloop. rewrite range_pred in Hloop.
  apply update_loop in Hloop as (Hlw & Hlb & Hsame & Hup).
  split; [done|]. split; [done|]. split; [done|]. split.
  - intros k Hk. apply Hsame. lia.
  - intros k Hk. apply Hup. lia.
Qed.

(** *** Sums over [Qc] *)

Lemma Qc_plus_nonneg a b : (0 ≤ a → 0 ≤ b → 0 ≤ a + b)%Qc.
Proof.
  intros Ha Hb. rewrite <-(Qcplus_0_l 0). by apply Qcplus_le_compat.
Qed.

Lemma Qc_mult_nonneg a b : (0 ≤ a → 0 ≤ b → 0 ≤ a * b)%Qc.
Proof.
  intros Ha Hb. rewrite <-(Qcmult_0_l b). by apply Qcmult_le_compat_r.
Qed.

Lemma Qc_square_nonneg x : (0 ≤ x * x)%Qc.
Proof.
  destruct (Qclt_le_dec x 0) as [Hx|Hx]; [|by apply Qc_mult_nonneg].
  replace (x * x)%Qc with ((- x) * (- x))%Qc by ring.
  assert (0 ≤ - x)%Qc as H.
  { replace 0%Qc with (- 0)%Qc by ring.
    apply Qcopp_le_compat, Qclt_le_weak, Hx. }
  by apply Qc_mult_nonneg.
Qed.

Lemma Qc_div_nonneg a b : (0 ≤ a → 0 ≤ b → 0 ≤ a / b)%Qc.
Proof.
  intros Ha Hb. apply Qc_mult_nonneg; [done|].
  unfold Qcle, Qcinv in *. cbn [this Q2Qc] in *.
  rewrite !Qred_correct in *. by apply Qinv_le_0_compat.
Qed.

Lemma sumf_S_l n f : sumf (S n) f = (f 0%nat + sumf n (λ k, f (S k)))%Qc.
Proof.
  unfold sumf. simpl. f_equal. rewrite <-fmap_S_seq.
  generalize (seq 0 n) as l. induction l as [|k l IH]; csimpl; [done|].
  by rewrite IH.
Qed.

Lemma sumf_plus n f g :
  sumf n (λ k, f k + g k)%Qc = (sumf n f + sumf n g)%Qc.
Proof.
  revert f g. induction n as [|n IH]; intros f g.
  - unfold sumf; simpl. ring.
  - rewrite !sumf_S_l, IH. ring.
Qed.

Lemma sumf_zero n : sumf n (λ _, 0%Qc) = 0%Qc.
Proof.
  induction n as [|n IH]; [done|]. rewrite sumf_S_l, IH. ring.
Qed.

Lemma sumf_exchange r c (f : nat → nat → Qc) :
  sumf c (λ i, sumf r (λ k, f k i)) = sumf r (λ k, sumf c (λ i, f k i)).
Proof.
  revert f. induction c as [|c IH]; intros f.
  - change (sumf r (λ k, sumf 0 (λ i, f k i))) with (sumf r (λ _, 0%Qc)).
    by rewrite sumf_zero.
  - rewrite sumf_S_l, IH, <-sumf_plus. apply sumf_ext. intros k _.
    by rewrite sumf_S_l.
Qed.

Lemma sumf_nonneg n f : (∀ k, (k < n)%nat → (0 ≤ f k)%Qc) → (0 ≤ sumf n f)%Qc.
Proof.
  revert f. induction n as [|n IH]; intros f H; [done|].
  rewrite sumf_S_l. apply Qc_plus_nonneg; [apply H; lia|].
  apply IH. intros k Hk. apply H. lia.
Qed.

Lemma foldr_sumf {B} (g : B → Qc) (d : B) (l : list B) :
  foldr (λ x a, (g x + a)%Qc) 0%Qc l = sumf (length l) (λ i, g (nth i l d)).
Proof.
  induction l as [|x l IH]; [done|]. simpl. by rewrite sumf_S_l, IH.
Qed.

(** *** The squared Frobenius norm *)

Lemma frob_squared_Some A :
  frob_squared A
  = Some (sumf (ncols A) (λ j, sumf (nrows A) (λ i, (get A i j * get A i j)%Qc))).
Proof.
  unfold frob_squared, matmul. rewrite decide_True by done.
  cbn [mbind option_bind]. f_equal.
  unfold trace. rewrite ncols_build, nrows_build.
  unfold transpose at 1 2. rewrite nrows_build. rewrite Nat.min_id.
  apply sumf_ext. intros j Hj. rewrite get_build by done.
  apply sumf_ext. intros i Hi. unfold transpose. by rewrite get_build.
Qed.

Lemma sum_squares_sumf A :
  wf A →
  sum_squares A
  = sumf (nrows A) (λ i, sumf (ncols A) (λ j, (get A i j * get A i j)%Qc)).
Proof.
  intros Hwf. unfold sum_squares.
  rewrite (foldr_sumf (λ row, foldr (λ x a, x * x + a) 0 row)%Qc []).
  apply sumf_ext. intros i Hi.
  rewrite (foldr_sumf (λ x, x * x)%Qc 0%Qc).
  assert (length (nth i (rows A) []) = ncols A) as ->; [|done].
  destruct (lookup_lt_is_Some_2 (rows A) i Hi) as [row Hrow].
  rewrite (nth_lookup_Some _ _ _ _ Hrow).
  by eapply (Forall_lookup_1 _ _ _ _ Hwf).
Qed.

Lemma frob_squared_sum_squares A : wf A → frob_squared A = Some (sum_squares A).
Proof.
  intros Hwf. by rewrite frob_squared_Some, sum_squares_sumf, sumf_exchange.
Qed.

Lemma frob_squared_nonneg A f : frob_squared A = Some f → (0 ≤ f)%Qc.
Proof.
  rewrite frob_squared_Some. intros [= <-].
  apply sumf_nonneg. intros j _. apply sumf_nonneg. intros i _.
  apply Qc_square_nonneg.
Qed.

Lemma s_body_Some s0 W s1 :
  s_body s0 W = Some s1 → ∃ f, frob_squared W = Some f ∧ s1 = (s0 + f)%Qc.
Proof.
  unfold s_body. destruct (frob_squared W) as [f|]; [|done].
  intros [= <-]. by exists f.
Qed.

Lemma s_loop_nonneg Ws : ∀ s0 s1,
  Py.for_ Ws s_body s0 = Some s1 → (0 ≤ s0)%Qc → (0 ≤ s1)%Qc.
Proof.
  induction Ws as [|W Ws IH]; intros s0 s1 H Hs0; [by simplify_eq/=|].
  rewrite for_cons in H.
  destruct (s_body s0 W) as [s'|] eqn:Es; [|done].
  apply s_body_Some in Es as (f & Ef & ->).
  eapply IH; [done|]. apply Qc_plus_nonneg; [done|by eapply frob_squared_nonneg].
Qed.

Lemma s_loop_sum_squares Ws : ∀ s0 s1,
  Forall wf Ws → Py.for_ Ws s_body s0 = Some s1 →
  s1 = (s0 + total_sum_squares Ws)%Qc.
Proof.
  induction Ws as [|W Ws IH]; intros s0 s1 Hwf H.
  - simplify_eq/=. unfold total_sum_squares; simpl. ring.
  - apply Forall_cons in Hwf as [HW Hwf]. rewrite for_cons in H.
    destruct (s_body s0 W) as [s'|] eqn:Es; [|done].
    apply s_body_Some in Es as (f & Ef & ->).
    rewrite frob_squared_sum_squares in Ef by done. injection Ef as <-.
    rewrite (IH _ _ Hwf H).
    unfold total_sum_squares; simpl. ring.
Qed.

(** *** The loss of a run *)

Lemma dot_self_fmap (g : nat → Qc) (l : list nat) :
  dot (g <$> l) (g <$> l) = Some (foldr (λ k acc, (g k * g k + acc)%Qc) 0%Qc l).
Proof.
  unfold dot. rewrite decide_True by done. f_equal.
  induction l as [|k l IH]; csimpl; [done|]. by rewrite IH.
Qed.

(** The loss of a run is half the square of the sum of the squared entries
    of the first column of the errors. *)
Lemma train_run_loss l lr inputs outputs self self' r :
  train_run l lr inputs outputs self = Some (self', r) →
  ncols (errors r) ≠ 0%nat ∧
  loss r
  = (1 / 2 * sumf (nrows (errors r))
               (λ i, get (errors r) i 0 * get (errors r) i 0) ^ 2)%Qc.
Proof.
  intros H. apply train_run_inv in H as (_ & _ & (e0 & d & He0 & Hd & ->) & _).
  unfold column0 in He0. case_decide; [done|]. injection He0 as <-.
  rewrite dot_self_fmap in Hd. injection Hd as <-. done.
Qed.


(** *** The last layer across [train] *)

Lemma train_run_last l lr inputs outputs self self' r :
  length (biases self) = length (weights self) →
  train_run l lr inputs outputs self = Some (self', r) →
  last (weights self') = last (weights self) ∧
  last (biases self') = last (biases self) ∧
  length (biases self') = length (weights self').
Proof.
  intros E H. apply train_run_update in H as (_ & Hlw & Hlb & Hsame & _).
  rewrite !last_lookup, Hlw, Hlb, E.
  destruct (Hsame (pred (length (weights self)))) as [-> ->]; [lia|done].
Qed.

Lemma run_loop_last l lr inputs outputs : ∀ (xs : list Z) st st',
  length (biases st.1) = length (weights st.1) →
  Py.for_ xs (run_body l lr inputs outputs) st = Some st' →
  last (weights st'.1) = last (weights st.1) ∧
  last (biases st'.1) = last (biases st.1) ∧
  length (biases st'.1) = length (weights st'.1).
Proof.
  induction xs as [|x xs IH]; intros st st' E H; [by simplify_eq/=|].
  rewrite for_cons in H.
  destruct (run_body l lr inputs outputs st x) as [st1|] eqn:Eb; [|done].
  cbn [mbind option_bind] in H. unfold run_body in Eb.
  destruct (train_run l lr inputs outputs st.1) as [[self1 r]|] eqn:Er; [|done].
  simpl in Eb. injection Eb as <-.
  apply train_run_last in Er as (Hw & Hb & E1); [|done].
  apply IH in H as (Hw' & Hb' & E'); [|done]. simpl in *.
  by rewrite Hw', Hb'.
Qed.

Lemma epoch_loop_last l lr inputs outputs t : ∀ (xs : list Z) st st',
  length (biases st.1) = length (weights st.1) →
  Py.for_ xs (epoch_body l lr inputs outputs t) st = Some st' →
  last (weights st'.1) = last (weights st.1) ∧
  last (biases st'.1) = last (biases st.1) ∧
  length (biases st'.1) = length (weights st'.1).
Proof.
  induction xs as [|x xs IH]; intros st st' E H; [by simplify_eq/=|].
  rewrite for_cons in H.
  destruct (epoch_body l lr inputs outputs t st x) as [st1|] eqn:Eb; [|done].
  cbn [mbind option_bind] in H. unfold epoch_body in Eb.
  destruct (Py.for_ (Py.range t) _ st) as [st2|] eqn:Er; [|done].
  cbn [mbind option_bind] in Eb.
  destruct (st2.2); [|done]. simpl in Eb. injection Eb as <-.
  apply run_loop_last in Er as (Hw & Hb & E1); [|done].
  apply IH in H as (Hw' & Hb' & E'); [|done].
  by rewrite Hw', Hb'.
Qed.

(** *** Shapes along an initialised network *)

Lemma shaped_lookup : ∀ Ws bs ls i,
  shaped ls Ws bs →
  (∀ W, Ws !! i = Some W →
        ∃ a b, ls !! i = Some a ∧ ls !! S i = Some b ∧ wf W ∧ shape W = (a, b)) ∧
  (∀ B, bs !! i = Some B →
        ∃ b, ls !! S i = Some b ∧ wf B ∧ shape B = (1%nat, b)).
Proof.
  induction Ws as [|W0 Ws IH]; intros [|B0 bs] ls i Hsh; try done.
  destruct ls as [|a ls]; [done|]. simpl in Hsh.
  destruct Hsh as (HwW & HsW & HwB & HsB & Hne & Hsh).
  destruct ls as [|b ls]; [done|]. simpl in HsW, HsB.
  destruct i as [|i]; simpl.
  - split; intros ? [= <-]; eauto 10.
  - apply (IH _ _ i) in Hsh. done.
Qed.

Lemma shaped_intro : ∀ Ws bs ls,
  length bs = length Ws → length ls = S (length Ws) →
  (∀ i W, Ws !! i = Some W →
          ∃ a b, ls !! i = Some a ∧ ls !! S i = Some b ∧ wf W ∧ shape W = (a, b)) →
  (∀ i B, bs !! i = Some B →
          ∃ b, ls !! S i = Some b ∧ wf B ∧ shape B = (1%nat, b)) →
  shaped ls Ws bs.
Proof.
  induction Ws as [|W0 Ws IH]; intros [|B0 bs] ls Hlb Hl HW HB; try done.
  - simpl in *. lia.
  - destruct ls as [|a [|b ls]]; try done. simpl.
    destruct (HW 0%nat W0 eq_refl) as (a' & b' & [= <-] & [= <-] & ? & ?).
    destruct (HB 0%nat B0 eq_refl) as (b'' & [= <-] & ? & ?).
    repeat split; try done.
    apply IH; simpl in *; [lia|lia|..].
    + intros i W Hi. apply (HW (S i) W Hi).
    + intros i B Hi. apply (HB (S i) B Hi).
Qed.

Lemma transitions_shapes plain : ∀ Ws bs ls X i A,
  shaped ls Ws bs → head ls = Some (ncols X) →
  transitions plain X Ws bs !! i = Some A →
  ∃ b, ls !! S i = Some b ∧ shape A = (nrows X, b).
Proof.
  induction Ws as [|W Ws IH]; intros [|B bs] ls X i A Hsh HX HA; try done.
  destruct ls as [|a ls]; [done|]. simpl in Hsh.
  destruct Hsh as (_ & HsW & _ & _ & Hne & Hsh).
  destruct ls as [|b ls]; [done|]. simpl in HsW.
  unfold shape in HsW. injection HsW as HrW HcW.
  change (transitions plain X (W :: Ws) (B :: bs))
    with (layer_output match Ws with [] => plain | _ => false end X W B
          :: transitions plain
               (layer_output match Ws with [] => plain | _ => false end
                  X W B) Ws bs) in HA.
  destruct i as [|i]; simpl in HA.
  - injection HA as <-. exists b. split; [done|].
    unfold layer_output. rewrite shape_build. by rewrite HcW.
  - eapply IH in HA as (b' & Hb' & Hs); [| done |].
    + exists b'. split; [done|]. rewrite Hs. unfold layer_output.
      by rewrite nrows_build.
    + simpl. by rewrite <-HcW.
Qed.

(** A loop whose body succeeds under an invariant which it keeps. *)
Lemma for_invariant {S A} (I : S → Prop) (xs : list A)
    (body : S → A → option S) s :
  I s →
  (∀ s x, x ∈ xs → I s → ∃ s', body s x = Some s' ∧ I s') →
  ∃ s', Py.for_ xs body s = Some s' ∧ I s'.
Proof.
  revert s. induction xs as [|x xs IH]; intros s Hs Hbody; [by exists s|].
  destruct (Hbody s x) as (s1 & E1 & Hs1); [by left|done|].
  destruct (IH s1) as (s' & E' & Hs'); [done| |].
  { intros s2 y Hy. apply Hbody. by right. }
  exists s'. by rewrite for_cons, E1.
Qed.

Lemma elem_of_range i n :
  i ∈ Py.range n → ∃ k : nat, i = Z.of_nat k ∧ Z.of_nat k < n.
Proof.
  unfold Py.range. rewrite elem_of_seqZ. intros Hi.
  exists (Z.to_nat i). lia.
Qed.

Lemma of_int_nonzero (n : nat) : n ≠ 0%nat → of_int (Z.of_nat n) ≠ 0%Qc.
Proof.
  intros Hn E. unfold of_int in E. apply Q2Qc_eq_iff in E.
  unfold Qeq in E. simpl in E. lia.
Qed.

(** *** A run on an initialised network and well-shaped batches succeeds *)

Lemma getitem_lookup {A} (l : list A) (k : nat) (i : Z) x :
  i = Z.of_nat k → l !! k = Some x → Py.getitem l i = Some x.
Proof.
  intros -> Hk. rewrite getitem_nat; [done|]. by eapply lookup_lt_Some.
Qed.

Lemma setitem_lookup {A} (l : list A) (k : nat) (i : Z) x :
  i = Z.of_nat k → (k < length l)%nat → Py.setitem l i x = Some (<[k:=x]> l).
Proof. intros -> Hk. by apply setitem_nat. Qed.

Lemma broadcast_same_shape f A B :
  shape A = shape B →
  ∃ C, broadcast f A B = Some C ∧ shape C = shape A ∧ wf C.
Proof.
  intros Hs. pose proof Hs as Hs'. unfold shape in Hs'. injection Hs' as Hr Hc.
  eexists. split; [by apply broadcast_same|].
  split; [by rewrite shape_build|apply wf_build].
Qed.

Lemma matmul_shape A B :
  ncols A = nrows B →
  ∃ C, matmul A B = Some C ∧ shape C = (nrows A, ncols B) ∧ wf C.
Proof.
  intros H. unfold matmul. rewrite decide_True by done. eexists.
  split; [done|]. split; [by rewrite shape_build|apply wf_build].
Qed.

Section RunSucceeds.
Context (l lr : Qc) (inputs : ndarray) (self : Model) (n : nat).
Hypothesis HL : length (layers self) = S (S n).
Hypothesis Hinit : initialized self.

Lemma initialized_lengths :
  length (weights self) = S n ∧ length (biases self) = S n.
Proof.
  destruct (shaped_length _ _ _ Hinit) as (Hb & Hl & _).
  assert (layers self ≠ []) as Hne by (by destruct (layers self)).
  specialize (Hl Hne). lia.
Qed.

Lemma initialized_mat_shaped : mat_shaped self (weights self).
Proof. intros k D HD. by apply (shaped_lookup _ _ _ k Hinit). Qed.

Lemma initialized_bias_shaped : bias_shaped self (biases self).
Proof. intros k B HB. by apply (shaped_lookup _ _ _ k Hinit). Qed.

Lemma col_shaped_insert zs k Z b :
  col_shaped self (nrows inputs) zs →
  layers self !! S k = Some b → shape Z = (nrows inputs, b) →
  col_shaped self (nrows inputs) (<[k:=Z]> zs).
Proof.
  intros Hzs Hb HZ k' Z' H'. destruct (decide (k' = k)) as [->|Hne].
  - apply list_lookup_insert_Some in H' as [(_ & <- & _)|[? _]]; [|done].
    by exists b.
  - rewrite list_lookup_insert_ne in H' by done. by apply Hzs.
Qed.

Lemma z_primes_body_succeeds acts zp (j : nat) :
  length acts = S n → col_shaped self (nrows inputs) acts →
  length zp = S n → col_shaped self (nrows inputs) zp →
  (j < n)%nat →
  ∃ zp', z_primes_body self acts zp (Z.of_nat j) = Some zp' ∧
         length zp' = S n ∧ col_shaped self (nrows inputs) zp'.
Proof.
  intros Hla Ha Hlz Hz Hj. destruct initialized_lengths as [Hlw _].
  destruct (lookup_lt_is_Some_2 acts (n - 1 - j)) as [A HA]; [lia|].
  destruct (lookup_lt_is_Some_2 zp (n - j)) as [Z HZ]; [lia|].
  destruct (lookup_lt_is_Some_2 (weights self) (n - j)) as [W HW]; [lia|].
  destruct (Ha _ _ HA) as (a & Hla' & HsA).
  destruct (Hz _ _ HZ) as (b & Hlb & HsZ).
  destruct (initialized_mat_shaped _ _ HW) as (a' & b' & Ha' & Hb' & _ & HsW).
  replace (S (n - 1 - j)) with (n - j)%nat in Hla' by lia.
  simplify_eq.
  unfold shape in HsA, HsZ, HsW.
  injection HsA as HrA HcA. injection HsZ as HrZ HcZ. injection HsW as HrW HcW.
  unfold z_primes_body, Py.len. rewrite HL, Hla.
  rewrite (getitem_lookup acts (n - 1 - j) _ A) by (done || lia).
  rewrite (getitem_lookup zp (n - j) _ Z) by (done || lia).
  rewrite (getitem_lookup (weights self) (n - j) _ W) by (done || lia).
  cbn [mbind option_bind].
  destruct (matmul_shape Z (transpose W)) as (M & -> & HsM & _).
  { unfold transpose. rewrite nrows_build. congruence. }
  cbn [mbind option_bind].
  destruct (broadcast_same_shape Qcmult M (set_positive_to_one A))
    as (P & HP & HsP & _).
  { rewrite HsM. unfold set_positive_to_one. rewrite shape_build.
    simpl. congruence. }
  fold multiply in HP. rewrite HP. cbn [mbind option_bind].
  rewrite (setitem_lookup zp (n - 1 - j)) by lia.
  eexists. split; [done|]. split; [by rewrite length_insert|].
  eapply col_shaped_insert; [done| |].
  - by replace (S (n - 1 - j)) with (n - j)%nat by lia.
  - rewrite HsP, HsM. simpl. congruence.
Qed.

Lemma deltas_body_succeeds acts zp ds (j : nat) :
  length acts = S n → col_shaped self (nrows inputs) acts →
  length zp = S n → col_shaped self (nrows inputs) zp →
  length ds = S n → mat_shaped self ds → (j + 1 < S n)%nat →
  ∃ ds', deltas_body acts zp ds (Z.of_nat j) = Some ds' ∧
         length ds' = S n ∧ mat_shaped self ds'.
Proof.
  intros Hla Ha Hlz Hz Hld Hd Hj.
  destruct (lookup_lt_is_Some_2 acts j) as [A HA]; [lia|].
  destruct (lookup_lt_is_Some_2 zp (S j)) as [Z HZ]; [lia|].
  destruct (Ha _ _ HA) as (a & Hla' & HsA).
  destruct (Hz _ _ HZ) as (b & Hlb & HsZ).
  unfold shape in HsA, HsZ.
  injection HsA as HrA HcA. injection HsZ as HrZ HcZ.
  unfold deltas_body.
  rewrite (getitem_lookup acts j _ A) by done.
  rewrite (getitem_lookup zp (S j) _ Z) by (done || lia).
  cbn [mbind option_bind].
  destruct (matmul_shape (transpose A) Z) as (D & -> & HsD & HwD).
  { simpl. congruence. }
  cbn [mbind option_bind].
  rewrite (setitem_lookup ds (S j)) by lia.
  eexists. split; [done|]. split; [by rewrite length_insert|].
  intros k D' H'. destruct (decide (k = S j)) as [->|Hne].
  - apply list_lookup_insert_Some in H' as [(_ & <- & _)|[? _]]; [|done].
    exists a, b. split; [done|]. split; [done|]. split; [done|].
    rewrite HsD. unfold transpose. rewrite nrows_build. by rewrite HcA, HcZ.
  - rewrite list_lookup_insert_ne in H' by done. by apply Hd.
Qed.

Lemma update_body_succeeds zp ds ws bs (j : nat) :
  nrows inputs ≠ 0%nat →
  length zp = S n → col_shaped self (nrows inputs) zp →
  length ds = S n → mat_shaped self ds →
  length ws = S n → mat_shaped self ws →
  length bs = S n → bias_shaped self bs →
  (j < n)%nat →
  ∃ ws' bs',
    update_body l lr (Z.of_nat (nrows inputs)) ds zp (ws, bs) (Z.of_nat j)
    = Some (ws', bs') ∧
    length ws' = S n ∧ mat_shaped self ws' ∧
    length bs' = S n ∧ bias_shaped self bs'.
Proof.
  intros HN Hlz Hz Hld Hd Hlw Hw Hlb Hb Hj.
  destruct (lookup_lt_is_Some_2 ws j) as [W HW]; [lia|].
  destruct (lookup_lt_is_Some_2 ds j) as [D HD]; [lia|].
  destruct (lookup_lt_is_Some_2 bs j) as [B HB]; [lia|].
  destruct (lookup_lt_is_Some_2 zp j) as [Z HZ]; [lia|].
  destruct (Hw _ _ HW) as (a & b & Hla & Hlb' & _ & HsW).
  destruct (Hd _ _ HD) as (a' & b' & ? & ? & _ & HsD).
  destruct (Hb _ _ HB) as (b'' & ? & _ & HsB).
  destruct (Hz _ _ HZ) as (b''' & ? & HsZ).
  simplify_eq.
  unfold update_body.
  rewrite (getitem_lookup ws j _ W) by done. cbn [mbind option_bind].
  unfold py_div. rewrite !decide_False by (by apply of_int_nonzero).
  cbn [mbind option_bind].
  rewrite (getitem_lookup ds j _ D) by done. cbn [mbind option_bind].
  destruct (broadcast_same_shape Qcplus
              (scale (1 / of_int (Z.of_nat (nrows inputs))) D) (scale l W))
    as (g & Hg & Hsg & _).
  { unfold scale. rewrite !shape_build. unfold shape in *. congruence. }
  fold add in Hg. rewrite Hg. cbn [mbind option_bind].
  destruct (broadcast_same_shape Qcminus W (scale lr g)) as (W' & HW' & HsW' & HwW').
  { unfold scale at 1. rewrite shape_build. rewrite <-HsD in HsW.
    unfold scale in Hsg. rewrite shape_build in Hsg. unfold shape in *. congruence. }
  fold subtract in HW'. rewrite HW'. cbn [mbind option_bind].
  rewrite (setitem_lookup ws j) by (done || lia). cbn [mbind option_bind].
  rewrite (getitem_lookup bs j _ B) by done. cbn [mbind option_bind].
  rewrite (getitem_lookup zp j _ Z) by done. cbn [mbind option_bind].
  destruct (broadcast_same_shape Qcminus B
              (as_row (scale1 (lr / of_int (Z.of_nat (nrows inputs)))
                         (sum_axis0 Z)))) as (B' & HB' & HsB' & HwB').
  { rewrite HsB. unfold as_row, shape, nrows, scale1, sum_axis0. simpl.
    rewrite !length_fmap, length_seq. unfold shape in HsZ. congruence. }
  fold subtract in HB'. rewrite HB'. cbn [mbind option_bind].
  rewrite (setitem_lookup bs j) by (done || lia). cbn [mbind option_bind].
  eexists _, _. split; [done|].
  split; [by rewrite length_insert|]. split; [|split; [by rewrite length_insert|]].
  - intros k D' H'. destruct (decide (k = j)) as [->|Hne].
    + apply list_lookup_insert_Some in H' as [(_ & <- & _)|[? _]]; [|done].
      exists a, b. rewrite HsW'. done.
    + rewrite list_lookup_insert_ne in H' by done. by apply Hw.
  - intros k D' H'. destruct (decide (k = j)) as [->|Hne].
    + apply list_lookup_insert_Some in H' as [(_ & <- & _)|[? _]]; [|done].
      exists b. rewrite HsB'. done.
    + rewrite list_lookup_insert_ne in H' by done. by apply Hb.
Qed.

End RunSucceeds.

Lemma s_loop_total Ws : ∀ s0, ∃ s1, Py.for_ Ws s_body s0 = Some s1.
Proof.
  induction Ws as [|W Ws IH]; intros s0; [by exists s0|].
  rewrite for_cons.
  assert (is_Some (s_body s0 W)) as [s1 ->]; [|apply IH].
  unfold s_body. by rewrite frob_squared_Some.
Qed.

Lemma py_div_2 x : py_div x 2 = Some (x / 2)%Qc.
Proof.
  unfold py_div. case_decide as E; [|done].
  apply (f_equal this) in E. vm_compute in E. discriminate.
Qed.

(** On an initialised network with at least two layer sizes, a non-empty
    input batch with [layers[0]] columns and a target batch of the shape
    of the prediction with at least one column, a run raises nothing,
    leaves the network initialised, and its lists have the shapes of the
    network. *)
Lemma train_run_shapes l lr inputs outputs self :
  initialized self → (2 ≤ length (layers self))%nat →
  head (layers self) = Some (ncols inputs) → nrows inputs ≠ 0%nat →
  shape outputs = (nrows inputs, default 0%nat (last (layers self))) →
  default 0%nat (last (layers self)) ≠ 0%nat →
  ∃ self' r,
    train_run l lr inputs outputs self = Some (self', r) ∧ initialized self' ∧
    shape (errors r) = shape outputs ∧
    col_shaped self (nrows inputs) (activated r) ∧
    col_shaped self (nrows inputs) (z_primes r) ∧
    mat_shaped self (deltas r).
Proof.
  intros Hinit HL2 Hhead HN Hout Hlast.
  destruct (length (layers self)) as [|[|n]] eqn:HL; [lia..|]. clear HL2.
  destruct (initialized_lengths self n HL Hinit) as [Hlw Hlb].
  pose proof (predict_Some self inputs (Some []) Hinit Hhead) as Hp.
  cbv zeta in Hp.
  destruct (transitions_shape (Py.is_small_int (Py.len (layers self) - 2))
              _ _ _ inputs Hinit Hhead) as [Hsp _].
  pose proof (transitions_length (Py.is_small_int (Py.len (layers self) - 2))
                inputs (weights self) (biases self) ltac:(lia)) as Hla.
  set (acts := transitions _ inputs (weights self) (biases self)) in *.
  set (pred := default inputs (last acts)) in *.
  rewrite Hlw in Hla.
  assert (col_shaped self (nrows inputs) acts) as Hacts.
  { intros k Z HZ. by eapply transitions_shapes. }
  assert (layers self !! S n = Some (default 0%nat (last (layers self)))) as Hln.
  { rewrite last_lookup, HL. simpl.
    destruct (lookup_lt_is_Some_2 (layers self) (S n)) as [x ->]; [lia|done]. }
  unfold train_run. rewrite Hp. cbn [mbind option_bind fmap option_fmap option_map].
  destruct (broadcast_same_shape Qcminus pred outputs) as (E & HE & HsE & _);
    [congruence|].
  fold subtract in HE. rewrite HE. cbn [mbind option_bind].
  unfold column0. rewrite decide_False; cycle 1.
  { unfold shape in HsE, Hsp. congruence. }
  cbn [mbind option_bind]. rewrite dot_self_fmap. cbn [mbind option_bind].
  rewrite py_div_2. cbn [mbind option_bind].
  destruct (s_loop_total (weights self) 0%Qc) as [s1 ->].
  cbn [mbind option_bind].
  unfold py_div at 1. rewrite decide_False by (by apply of_int_nonzero).
  cbn [mbind option_bind]. rewrite py_div_2. cbn [mbind option_bind].
  rewrite (setitem_lookup _ n) by (unfold Py.len; simpl; lia).
  cbn [mbind option_bind].
  destruct (for_invariant
              (λ zp, length zp = S n ∧ col_shaped self (nrows inputs) zp)
              (Py.range (Py.len (layers self) - 2))
              (z_primes_body self ([] ++ acts))
              (<[n:=E]> ([] ++ acts))) as (zp & -> & Hlz & Hzp).
  { split; [by rewrite length_insert|].
    eapply col_shaped_insert; [done|done|]. by rewrite HsE. }
  { intros zp0 j Hj [Hlz0 Hz0]. apply elem_of_range in Hj as (k & -> & Hk).
    apply z_primes_body_succeeds; try done. unfold Py.len in Hk. lia. }
  cbn [mbind option_bind].
  destruct (lookup_lt_is_Some_2 zp 0) as [z0 Hz0]; [lia|].
  rewrite (getitem_lookup zp 0 _ z0) by done. cbn [mbind option_bind].
  destruct (Hzp _ _ Hz0) as (b1 & Hb1 & Hsz0).
  destruct (matmul_shape (transpose inputs) z0) as (d0 & -> & Hsd0 & Hwd0).
  { unfold shape in Hsz0. simpl. congruence. }
  cbn [mbind option_bind].
  rewrite (setitem_lookup _ 0) by (done || lia). cbn [mbind option_bind].
  destruct (for_invariant
              (λ ds, length ds = S n ∧ mat_shaped self ds)
              (Py.range (Py.len (layers self) - 3))
              (deltas_body ([] ++ acts) zp)
              (<[0%nat:=d0]> (weights self))) as (ds & -> & Hld & Hds).
  { split; [by rewrite length_insert|]. intros k D HD.
    destruct k as [|k].
    - apply list_lookup_insert_Some in HD as [(_ & <- & _)|[? _]]; [|done].
      exists (ncols inputs), b1. split; [by destruct (layers self)|].
      split; [done|]. split; [done|]. rewrite Hsd0. unfold transpose.
      rewrite nrows_build. unfold shape in Hsz0. congruence.
    - rewrite list_lookup_insert_ne in HD by done.
      by apply (initialized_mat_shaped self Hinit). }
  { intros ds0 j Hj [Hld0 Hd0]. apply elem_of_range in Hj as (k & -> & Hk).
    eapply deltas_body_succeeds; try done. unfold Py.len in Hk. lia. }
  cbn [mbind option_bind].
  destruct (for_invariant
              (λ st, (length st.1 = S n ∧ mat_shaped self st.1) ∧
                     (length st.2 = S n ∧ bias_shaped self st.2))
              (Py.range (Py.len (weights self) - 1))
              (update_body l lr (Z.of_nat (nrows inputs)) ds zp)
              (weights self, biases self))
    as ([ws bs] & -> & [Hlws Hws] & [Hlbs Hbs]).
  { split; (split; [done|]).
    - by apply initialized_mat_shaped.
    - by apply initialized_bias_shaped. }
  { intros [ws0 bs0] j Hj [[? ?] [? ?]].
    apply elem_of_range in Hj as (k & -> & Hk). cbn [fst snd] in *.
    destruct (update_body_succeeds l lr inputs self n HL zp ds ws0 bs0 k)
      as (ws' & bs' & -> & ? & ? & ? & ?); try done.
    { unfold Py.len in Hk. lia. }
    by exists (ws', bs'). }
  cbn [mbind option_bind].
  eexists _, _. split; [done|]. split.
  { unfold initialized. cbn [fst snd layers weights biases] in *.
    apply shaped_intro; [lia|lia|done|done]. }
  cbn [errors activated z_primes deltas].
  split; [congruence|]. done.
Qed.


(** *** [train] on an initialised network and well-shaped batches returns *)

Section TrainSucceeds.
Context (l lr : Qc) (inputs outputs : ndarray) (self0 : Model).
Hypothesis HL : (2 ≤ length (layers self0))%nat.
Hypothesis Hhead : head (layers self0) = Some (ncols inputs).
Hypothesis HN : nrows inputs ≠ 0%nat.
Hypothesis Hout :
  shape outputs = (nrows inputs, default 0%nat (last (layers self0))).
Hypothesis Hlast : default 0%nat (last (layers self0)) ≠ 0%nat.



End TrainSucceeds.


(** ** The claims

    The statements about [train] speak of a run that does not raise;
    [train_run_succeeds] and [train_succeeds] above show that no run
    raises on an initialised network of at least two layer sizes with
    well-shaped, non-empty batches. *)

(** C1. In a run of [train], the error signal at the final layer boundary
    is the prediction minus the target, and at every earlier boundary [k]
    it is the error signal at [k+1] times the transposed weight matrix
    [k+1], multiplied elementwise with the derivative of ReLU taken on the
    cached forward activation at [k]. *)
Theorem train_backward_pass l lr inputs outputs self self' r :
  train_run l lr inputs outputs self = Some (self', r) →
  predict self inputs (Some []) = Some (y_hat r, Some (activated r)) ∧
  subtract (y_hat r) outputs = Some (errors r) ∧
  z_primes r !! (length (layers self) - 2)%nat = Some (errors r) ∧
  ∀ k, (k + 2 < length (layers self))%nat →
       z_prime_step relu_derivative self (activated r) (z_primes r) k.
Proof.
  intros H.
  destruct (train_run_backward _ _ _ _ _ _ _ H)
    as (n & HL & _ & _ & _ & Hn & _ & _ & Hstep).
  apply train_run_inv in H as (Hp & He & _).
  split; [done|]. split; [done|]. rewrite HL. split.
  - by replace (S (S n) - 2)%nat with n by lia.
  - intros k Hk. apply Hstep. lia.
Qed.

(** The run of [train] on the network with layer sizes (2, 2, 1). *)
Lemma train_backward_pass_witness :
  ∃ self' r,
    train_run weight_decay lr_default inputs_hidden outputs_hidden net_hidden
    = Some (self', r) ∧
    z_primes r !! 1%nat = Some (errors r) ∧
    z_prime_step relu_derivative net_hidden (activated r) (z_primes r) 0.
Proof.
  eexists _, _. split; [vm_compute; reflexivity|].
  edestruct (train_backward_pass weight_decay lr_default inputs_hidden
              outputs_hidden net_hidden) as (_ & _ & Hz & Hstep);
    [vm_compute; reflexivity|].
  split; [exact Hz|]. apply Hstep. simpl. lia.
Defined.

(** C2. On the network with layer sizes (2, 2, 1), the entry of [deltas]
    for weight matrix 1 after a run is not the transposed cached
    activation 0 times the error signal 1: the loop "compute deltas" stops
    one matrix early and the entry is still the weight matrix itself. *)
Theorem train_last_delta_not_computed :
  ∃ self' r A Z G,
    train_run weight_decay lr_default inputs_hidden outputs_hidden net_hidden
    = Some (self', r) ∧
    activated r !! 0%nat = Some A ∧ z_primes r !! 1%nat = Some Z ∧
    matmul (transpose A) Z = Some G ∧
    deltas r !! 1%nat = weights net_hidden !! 1%nat ∧
    deltas r !! 1%nat ≠ Some G.
Proof.
  assert (∃ self' r,
            train_run weight_decay lr_default inputs_hidden outputs_hidden
              net_hidden = Some (self', r)) as (self' & r & E)
    by (eexists _, _; vm_compute; reflexivity).
  destruct (train_run_deltas _ _ _ _ _ _ _ E) as (_ & _ & _ & Hlast).
  specialize (Hlast 1%nat ltac:(lia) ltac:(simpl; lia)).
  vm_compute in E. injection E as <- <-.
  eexists _, _, _, _, _. split; [reflexivity|].
  split; [reflexivity|]. split; [reflexivity|].
  split; [vm_compute; reflexivity|]. split; [exact Hlast|].
  intros Hne. apply (f_equal (fmap (λ D, this (get D 0 0)))) in Hne.
  vm_compute in Hne. discriminate.
Qed.

(** C3. On the same network, a run leaves weight matrix 1 and bias 1 as
    they were, although the update rule of the optimizer step gives other
    values for both. *)
Theorem train_last_layer_not_updated :
  ∃ self' r W b z A G inv g W' kk b',
    train_run weight_decay lr_default inputs_hidden outputs_hidden net_hidden
    = Some (self', r) ∧
    weights net_hidden !! 1%nat = Some W ∧ biases net_hidden !! 1%nat = Some b ∧
    weights self' !! 1%nat = Some W ∧ biases self' !! 1%nat = Some b ∧
    activated r !! 0%nat = Some A ∧ z_primes r !! 1%nat = Some z ∧
    matmul (transpose A) z = Some G ∧
    py_div 1 (of_int 2) = Some inv ∧
    add (scale inv G) (scale weight_decay W) = Some g ∧
    subtract W (scale lr_default g) = Some W' ∧ W' ≠ W ∧
    py_div lr_default (of_int 2) = Some kk ∧
    subtract b (as_row (scale1 kk (sum_axis0 z))) = Some b' ∧ b' ≠ b.
Proof.
  assert (∃ self' r,
            train_run weight_decay lr_default inputs_hidden outputs_hidden
              net_hidden = Some (self', r)) as (self' & r & E)
    by (eexists _, _; vm_compute; reflexivity).
  destruct (train_run_update _ _ _ _ _ _ _ E) as (_ & _ & _ & Hsame & _).
  destruct (Hsame 1%nat ltac:(simpl; lia)) as [HW Hb].
  vm_compute in E. injection E as <- <-.
  eexists _, _, _, _, _, _, _, _, _, _, _, _.
  split; [reflexivity|]. split; [reflexivity|]. split; [reflexivity|].
  split; [exact HW|]. split; [exact Hb|].
  split; [reflexivity|]. split; [reflexivity|].
  split; [vm_compute; reflexivity|]. split; [vm_compute; reflexivity|].
  split; [vm_compute; reflexivity|]. split; [vm_compute; reflexivity|].
  split.
  { intros Hne. apply (f_equal (λ D, this (get D 0 0))) in Hne.
    vm_compute in Hne. discriminate. }
  split; [vm_compute; reflexivity|]. split; [vm_compute; reflexivity|].
  intros Hne. apply (f_equal (λ D, this (get D 0 0))) in Hne.
  vm_compute in Hne. discriminate.
Qed.

(** C4. No update step of [train] changes the last weight matrix or the
    last bias vector: a run applies weight decay and the gradient-descent
    update to every weight matrix and bias but the last, and so a whole
    call of [train] returns with the last ones as it found them. *)
Theorem train_keeps_last_layer :
  (∀ l lr inputs outputs self self' r,
     length (biases self) = length (weights self) →
     train_run l lr inputs outputs self = Some (self', r) →
     last (weights self') = last (weights self) ∧
     last (biases self') = last (biases self) ∧
     ∀ k, (k + 1 < length (weights self))%nat →
          updated l lr (Z.of_nat (nrows inputs)) (deltas r) (z_primes r) self
            (weights self') (biases self') k) ∧
  (∀ self inputs outputs num_epochs lr t self' y,
     length (biases self) = length (weights self) →
     train self inputs outputs num_epochs lr t = Some (self', y) →
     last (weights self') = last (weights self) ∧
     last (biases self') = last (biases self)).
Proof.
  split.
  - intros l lr inputs outputs self self' r E H.
    destruct (train_run_last _ _ _ _ _ _ _ E H) as (Hw & Hb & _).
    apply train_run_update in H as (_ & _ & _ & _ & Hup). done.
  - intros self inputs outputs num_epochs lr t self' y E H.
    unfold train in H.
    destruct (Py.for_ (Py.range num_epochs) _ (self, None)) as [[self1 y1]|]
      eqn:El; [|done].
    cbn [mbind option_bind] in H. destruct y1 as [y1|]; [|done].
    simpl in H. injection H as <- <-.
    apply epoch_loop_last in El as (Hw & Hb & _); done.
Qed.

(** One run, and two epochs of two runs, on the network with layer sizes
    (2, 2, 1). *)
Lemma train_keeps_last_layer_witness :
  (∃ self' r,
     train_run weight_decay lr_default inputs_hidden outputs_hidden net_hidden
     = Some (self', r) ∧
     last (weights self') = last (weights net_hidden) ∧
     last (biases self') = last (biases net_hidden)) ∧
  (∃ self' y,
     train net_hidden inputs_hidden outputs_hidden 2 lr_default 2
     = Some (self', y) ∧
     last (weights self') = last (weights net_hidden) ∧
     last (biases self') = last (biases net_hidden)).
Proof.
  destruct train_keeps_last_layer as [Hrun Htrain]. split.
  - assert (∃ self' r,
              train_run weight_decay lr_default inputs_hidden outputs_hidden
                net_hidden = Some (self', r)) as (self' & r & E)
      by (eexists _, _; vm_compute; reflexivity).
    destruct (Hrun weight_decay lr_default inputs_hidden outputs_hidden
                net_hidden self' r eq_refl E) as (Hw & Hb & _).
    exists self', r. split; [exact E|]. split; [exact Hw|exact Hb].
  - assert (∃ self' y,
              train net_hidden inputs_hidden outputs_hidden 2 lr_default 2
              = Some (self', y)) as (self' & y & E)
      by (eexists _, _; vm_compute; reflexivity).
    destruct (Htrain net_hidden inputs_hidden outputs_hidden 2 lr_default 2
                self' y eq_refl E) as (Hw & Hb).
    exists self', y. split; [exact E|]. split; [exact Hw|exact Hb].
Defined.

(** C5. On the network with layer sizes (1, 1), input 3 and target 1, the
    prediction error is 2 and the loss term of the objective is 8, not the
    halved mean squared error 2: the code squares the sum of the squared
    errors once more. *)
Theorem train_loss_term_squared_again :
  ∃ self' r inv,
    train_run weight_decay lr_default (int_array 1 [[3]]) (int_array 1 [[1]])
      net_linear = Some (self', r) ∧
    get (errors r) 0 0 = of_int 2 ∧ shape (errors r) = (1%nat, 1%nat) ∧
    py_div 1 (of_int 1) = Some inv ∧
    objective r = (inv * loss r + weight_decay / 2 * s r)%Qc ∧
    (inv * loss r)%Qc = of_int 8 ∧
    half_mse 1 (errors r) = of_int 2.
Proof.
  eexists _, _, _. split; [vm_compute; reflexivity|].
  split; [apply Qc_is_canon; reflexivity|]. split; [reflexivity|].
  split; [vm_compute; reflexivity|].
  split; [apply Qc_is_canon; reflexivity|].
  split; apply Qc_is_canon; reflexivity.
Qed.

(** C6. On a network of 259 layer sizes [predict] applies ReLU at the
    final transition too.  With 257 transitions that multiply by 1, a
    final one that multiplies by -1 and the input 3, it returns 0 where
    the forward pass of the design, which leaves the final transition
    unactivated, gives -3: the test [i is not (len(self.layers) - 2)]
    compares objects, and two integers 257 are two objects. *)
Theorem predict_relu_at_final_transition :
  ∃ pred F,
    predict net_deep input_deep None = Some (pred, None) ∧
    last (forward input_deep (weights net_deep) (biases net_deep)) = Some F ∧
    shape pred = (1%nat, 1%nat) ∧ shape F = (1%nat, 1%nat) ∧
    get pred 0 0 = 0%Qc ∧ get F 0 0 = of_int (-3).
Proof.
  eexists _, _. split; [vm_compute; reflexivity|].
  split; [vm_compute; reflexivity|].
  split; [reflexivity|]. split; [reflexivity|].
  split; apply Qc_is_canon; reflexivity.
Qed.

(** C7. The derivative of ReLU that the backward pass of [train] uses at
    boundary [k] is computed from the cached activation at [k] (the copy
    with its positive entries set to 1), and it is 1 at every entry whose
    cached value is strictly positive and 0 at every other entry, hence 0
    where the cached value is exactly 0. *)
Theorem relu_derivative_from_cache l lr inputs outputs self self' r k :
  train_run l lr inputs outputs self = Some (self', r) →
  (k + 2 < length (layers self))%nat →
  ∃ A,
    activated r !! k = Some A ∧
    z_prime_step set_positive_to_one self (activated r) (z_primes r) k ∧
    set_positive_to_one A = relu_derivative A ∧
    shape (set_positive_to_one A) = shape A ∧
    ∀ i j, (i < nrows A)%nat → (j < ncols A)%nat →
      ((0 < get A i j)%Qc → get (set_positive_to_one A) i j = 1%Qc) ∧
      (¬ (0 < get A i j)%Qc → get (set_positive_to_one A) i j = 0%Qc) ∧
      (get A i j = 0%Qc → get (set_positive_to_one A) i j = 0%Qc).
Proof.
  intros H Hk.
  destruct (train_run_backward _ _ _ _ _ _ _ H)
    as (n & HL & Hla & _ & _ & _ & Hnn & Hstep & _).
  destruct (lookup_lt_is_Some_2 (activated r) k) as [A HA]; [lia|].
  assert (nonneg A) as HnnA by (eapply Hnn; [|done]; lia).
  exists A. split; [done|]. split; [apply Hstep; lia|].
  split; [by apply set_positive_to_one_nonneg|].
  split; [unfold set_positive_to_one; by rewrite shape_build|].
  intros i j Hi Hj. rewrite set_positive_to_one_nonneg by done.
  unfold relu_derivative. rewrite get_build by done.
  destruct (Qclt_le_dec 0 (get A i j)) as [Hpos|Hle].
  - split; [done|]. split; [done|]. intros E. rewrite E in Hpos.
    by apply Qclt_not_eq in Hpos.
  - split; [|done]. intros Hpos. by apply Qclt_not_le in Hpos.
Qed.

(** The hidden activation of the network with layer sizes (2, 2, 1). *)
Lemma relu_derivative_from_cache_witness :
  ∃ self' r A,
    train_run weight_decay lr_default inputs_hidden outputs_hidden net_hidden
    = Some (self', r) ∧
    activated r !! 0%nat = Some A ∧
    set_positive_to_one A = relu_derivative A.
Proof.
  assert (∃ self' r,
            train_run weight_decay lr_default inputs_hidden outputs_hidden
              net_hidden = Some (self', r)) as (self' & r & E)
    by (eexists _, _; vm_compute; reflexivity).
  destruct (relu_derivative_from_cache _ _ _ _ _ _ _ 0%nat E)
    as (A & HA & _ & Hd & _); [simpl; lia|].
  exists self', r, A. split; [exact E|]. split; [exact HA|exact Hd].
Defined.

(** C8. [frob_squared(A)], the trace of the transpose of [A] times [A], is
    the sum of the squares of all entries of [A]; on the one-row matrix
    [[3, 4]] it is 25; and the regularization term of the objective of a
    run is [l/2] times the sum of the squared entries of all weight
    matrices. *)
Theorem frob_squared_sum_of_squares :
  (∀ A, wf A → frob_squared A = Some (sum_squares A)) ∧
  frob_squared (int_array 2 [[3; 4]]) = Some (of_int 25) ∧
  (∀ l lr inputs outputs self self' r,
     Forall wf (weights self) →
     train_run l lr inputs outputs self = Some (self', r) →
     s r = total_sum_squares (weights self) ∧
     ∃ inv, py_div 1 (of_int (Z.of_nat (nrows inputs))) = Some inv ∧
            objective r
            = (inv * loss r + l / 2 * total_sum_squares (weights self))%Qc).
Proof.
  split; [apply frob_squared_sum_squares|]. split.
  - rewrite frob_squared_sum_squares by (by repeat constructor).
    apply (f_equal Some), Qc_is_canon. reflexivity.
  - intros l lr inputs outputs self self' r Hwf H.
    apply train_run_inv in H as (_ & _ & _ & Hs & (inv & Hinv & Ho) & _).
    apply s_loop_sum_squares in Hs; [|done]. rewrite Qcplus_0_l in Hs.
    split; [done|]. exists inv. by rewrite <-Hs.
Qed.

(** A column matrix, and the run on the network with layer sizes
    (2, 2, 1). *)
Lemma frob_squared_sum_of_squares_witness :
  frob_squared (int_array 1 [[1]; [2]])
  = Some (sum_squares (int_array 1 [[1]; [2]])) ∧
  ∃ self' r,
    train_run weight_decay lr_default inputs_hidden outputs_hidden net_hidden
    = Some (self', r) ∧
    s r = total_sum_squares (weights net_hidden).
Proof.
  destruct frob_squared_sum_of_squares as (Hf & _ & Hs).
  split; [apply Hf; by repeat constructor|].
  assert (∃ self' r,
            train_run weight_decay lr_default inputs_hidden outputs_hidden
              net_hidden = Some (self', r)) as (self' & r & E)
    by (eexists _, _; vm_compute; reflexivity).
  exists self', r. split; [exact E|].
  eapply Hs; [|exact E]. by repeat constructor.
Defined.

(** C9. Whatever the model, the batches and the non-negative weight decay
    parameter, the objective that a run of [train] computes (loss term
    plus regularization term) is non-negative. *)
Theorem objective_nonneg l lr inputs outputs self self' r :
  (0 ≤ l)%Qc →
  train_run l lr inputs outputs self = Some (self', r) →
  (0 ≤ objective r)%Qc.
Proof.
  intros Hl H.
  apply train_run_inv in H
    as (_ & _ & (e0 & d & _ & _ & Hloss) & Hs & (inv & Hinv & ->) & _).
  apply s_loop_nonneg in Hs; [|done].
  unfold py_div in Hinv. case_decide; [done|]. injection Hinv as <-.
  apply Qc_plus_nonneg; apply Qc_mult_nonneg; try done.
  - apply Qc_div_nonneg; [done|].
    unfold of_int, Qcle. cbn [this Q2Qc]. rewrite !Qred_correct.
    unfold Qle; simpl. lia.
  - rewrite Hloss. apply Qc_mult_nonneg; [done|].
    simpl. rewrite Qcmult_1_r. apply Qc_square_nonneg.
  - by apply Qc_div_nonneg.
Qed.

(** The run on the network with layer sizes (2, 2, 1), with [l = 1e-5]. *)
Lemma objective_nonneg_witness :
  ∃ self' r,
    train_run weight_decay lr_default inputs_hidden outputs_hidden net_hidden
    = Some (self', r) ∧ (0 ≤ objective r)%Qc.
Proof.
  assert (∃ self' r,
            train_run weight_decay lr_default inputs_hidden outputs_hidden
              net_hidden = Some (self', r)) as (self' & r & E)
    by (eexists _, _; vm_compute; reflexivity).
  exists self', r. split; [exact E|].
  eapply objective_nonneg; [|exact E]. vm_compute. discriminate.
Defined.

(** C10. A call of [predict] with a cache list appends one matrix per layer
    transition, [len(layers) - 1] in all, and the last one appended is the
    prediction it returns. *)
Theorem predict_cache self input cache pred cache' :
  predict self input (Some cache) = Some (pred, cache') →
  ∃ new,
    cache' = Some (cache ++ new) ∧
    length new = (length (layers self) - 1)%nat ∧
    ((2 ≤ length (layers self))%nat → last new = Some pred).
Proof.
  unfold predict. intros H.
  apply predict_cache_loop in H as (new & -> & Hlen & Hlast & _).
  unfold Py.range, Py.len in *. rewrite length_seqZ in Hlen.
  exists new. split; [done|]. split; [lia|].
  intros HL. apply Hlast. intros E.
  apply (f_equal length) in E. rewrite length_seqZ in E. simpl in E. lia.
Qed.

(** [predict] with a cache that already holds one matrix. *)
Lemma predict_cache_witness :
  ∃ pred new,
    predict net_hidden inputs_hidden (Some [inputs_hidden])
    = Some (pred, Some ([inputs_hidden] ++ new)) ∧
    length new = 2%nat ∧ last new = Some pred.
Proof.
  edestruct (predict_cache net_hidden inputs_hidden [inputs_hidden])
    as (new & Hc & Hlen & Hlast); [vm_compute; reflexivity|].
  injection Hc as Hc.
  eexists _, new. split; [rewrite <-Hc; vm_compute; reflexivity|].
  split; [exact Hlen|]. apply Hlast. simpl. lia.
Defined.

(** ** Further properties

    *** The constructor *)

Lemma init_loop {G} (random : G → nat → nat → ndarray * G) layers :
  (∀ g a b, wf (random g a b).1 ∧ shape (random g a b).1 = (a, b)) →
  ∀ (m : nat) g0, (m + 1 ≤ length layers)%nat →
  ∃ g ws bs,
    Py.for_ (Py.range (Z.of_nat m)) (init_body random layers) (g0, ([], []))
    = Some (g, (ws, bs)) ∧
    length ws = m ∧ length bs = m ∧
    (∀ i W, ws !! i = Some W →
       ∃ a b, layers !! i = Some a ∧ layers !! S i = Some b ∧
              wf W ∧ shape W = (a, b)) ∧
    (∀ i B, bs !! i = Some B →
       ∃ b, layers !! S i = Some b ∧ wf B ∧ shape B = (1%nat, b)).
Proof.
  intros Hrandom. induction m as [|m IH]; intros g0 Hm.
  - exists g0, [], []. by rewrite range_nonpos.
  - destruct (IH g0) as (g & ws & bs & E & Hlw & Hlb & Hws & Hbs); [lia|].
    destruct (lookup_lt_is_Some_2 layers m) as [a Ha]; [lia|].
    destruct (lookup_lt_is_Some_2 layers (S m)) as [b Hb]; [lia|].
    destruct (random g a b) as [W g1] eqn:EW.
    destruct (random g1 1%nat b) as [B g2] eqn:EB.
    pose proof (Hrandom g a b) as [HwW HsW]. rewrite EW in HwW, HsW.
    pose proof (Hrandom g1 1%nat b) as [HwB HsB]. rewrite EB in HwB, HsB.
    exists g2, (ws ++ [W]), (bs ++ [B]).
    rewrite range_S, for_app, E. cbn [mbind option_bind Py.for_].
    split.
    { unfold init_body.
      rewrite (getitem_lookup layers m (Z.of_nat m) a) by done.
      rewrite !(getitem_lookup layers (S m) (Z.of_nat m + 1) b)
        by (done || lia).
      cbn [mbind option_bind]. rewrite EW.
      cbn [mbind option_bind]. by rewrite EB. }
    rewrite !length_app. simpl. split; [lia|]. split; [lia|]. split.
    + intros i W' Hi. apply lookup_app_Some in Hi as [Hi|[Hge Hi]].
      * by apply Hws.
      * apply list_lookup_singleton_Some in Hi as [Hi <-].
        assert (i = m) as -> by lia. by exists a, b.
    + intros i B' Hi. apply lookup_app_Some in Hi as [Hi|[Hge Hi]].
      * by apply Hbs.
      * apply list_lookup_singleton_Some in Hi as [Hi <-].
        assert (i = m) as -> by lia. by exists b.
Qed.

(** X1. [Model.__init__] never raises: whatever arrays of the requested
    shapes the generator returns, it builds a model with the layer sizes
    it was given, [len(layers) - 1] weight matrices of shape
    [(layers[i], layers[i+1])] and as many biases of shape
    [(1, layers[i+1])]. *)
Theorem init_initialized {G} (random : G → nat → nat → ndarray * G) g ls :
  (∀ g a b, wf (random g a b).1 ∧ shape (random g a b).1 = (a, b)) →
  ∃ self g',
    init random g ls = Some (self, g') ∧
    layers self = ls ∧ initialized self ∧
    length (weights self) = (length ls - 1)%nat ∧
    length (biases self) = (length ls - 1)%nat.
Proof.
  intros Hrandom. unfold init.
  destruct ls as [|l0 ls].
  { exists (MkModel [] [] []), g. rewrite range_nonpos by done. simpl.
    repeat split. unfold initialized; simpl. lia. }
  destruct (init_loop random (l0 :: ls) Hrandom (length ls) g)
    as (g' & ws & bs & E & Hlw & Hlb & Hws & Hbs); [simpl; lia|].
  exists (MkModel (l0 :: ls) ws bs), g'.
  replace (Py.len (l0 :: ls) - 1) with (Z.of_nat (length ls))
    by (unfold Py.len; simpl; lia).
  rewrite E. cbn [mbind option_bind].
  split; [done|]. split; [done|]. simpl.
  split; [|by rewrite Nat.sub_0_r].
  unfold initialized; simpl.
  destruct ls as [|l1 ls].
  - destruct ws; [|done]. destruct bs; [|done]. simpl. lia.
  - apply shaped_intro; simpl in *; [lia|lia|done|done].
Qed.

(** The generator of halves on the layer sizes (2, 3, 5, 2, 1) of the
    notebook. *)
Lemma init_initialized_witness :
  ∃ self,
    init random_half () [2; 3; 5; 2; 1]%nat = Some (self, ()) ∧
    initialized self ∧ length (weights self) = 4%nat.
Proof.
  destruct (init_initialized random_half () [2; 3; 5; 2; 1]%nat)
    as (self & [] & E & _ & Hinit & Hlw & _).
  - intros g a b. split; [apply wf_build|apply shape_build].
  - by exists self.
Defined.

(** *** The forward pass *)

Lemma predict_body_cache self X c i :
  predict_body self (X, None) i
  = (λ p, (p.1, None)) <$> predict_body self (X, Some c) i.
Proof.
  unfold predict_body.
  destruct (Py.getitem (biases self) i) as [b|]; [|done].
  destruct (Py.getitem (weights self) i) as [w|]; [|done].
  cbn [mbind option_bind].
  destruct (matmul X w) as [m|]; [|done]. cbn [mbind option_bind].
  destruct (add m _) as [p|]; [|done]. cbn [mbind option_bind].
  by destruct (if Py.is_not i (Py.len (layers self) - 2) then relu p else Some p).
Qed.

Lemma predict_loop_cache self : ∀ xs X c,
  Py.for_ xs (predict_body self) (X, None)
  = (λ p, (p.1, None)) <$> Py.for_ xs (predict_body self) (X, Some c).
Proof.
  induction xs as [|i xs IH]; intros X c; [done|].
  rewrite !for_cons, (predict_body_cache self X c i).
  destruct (predict_body self (X, Some c) i) as [[Y c']|] eqn:E; [|done].
  apply predict_body_appends in E as [-> _]. simpl. apply IH.
Qed.

Lemma predict_cache_irrelevant_aux self input cache :
  predict self input None
  = (λ p, (p.1, None)) <$> predict self input (Some cache).
Proof. apply predict_loop_cache. Qed.

(** X2. Passing a list for the activations does not change what [predict]
    computes: the call without a list raises exactly when the call with a
    list does, and returns the same prediction. *)
Theorem predict_cache_irrelevant self input cache :
  predict self input None
  = (λ p, (p.1, None)) <$> predict self input (Some cache).
Proof. apply predict_loop_cache. Qed.

(** X3. On an initialised network with at least two layer sizes, [predict]
    raises on an input batch whose number of columns is not [layers[0]]
    (the first [np.matmul] rejects it), with or without a cache. *)
Theorem predict_wrong_columns self input save_activated :
  initialized self → (2 ≤ length (layers self))%nat →
  head (layers self) ≠ Some (ncols input) →
  predict self input save_activated = None.
Proof.
  intros Hinit HL Hhead. unfold predict, Py.range.
  rewrite seqZ_cons by (unfold Py.len; lia). rewrite for_cons.
  destruct (initialized_length self Hinit) as [HL' Hlb];
    [intros E; rewrite E in HL; simpl in HL; lia|].
  destruct (lookup_lt_is_Some_2 (weights self) 0) as [W HW]; [lia|].
  destruct (lookup_lt_is_Some_2 (biases self) 0) as [b Hb]; [lia|].
  destruct (shaped_lookup _ _ _ 0%nat Hinit) as [HsW _].
  destruct (HsW W HW) as (a0 & a1 & Ha0 & _ & _ & Hs).
  unfold predict_body.
  rewrite (getitem_lookup (biases self) 0 0 b) by done.
  rewrite (getitem_lookup (weights self) 0 0 W) by done.
  cbn [mbind option_bind]. unfold matmul. rewrite decide_False; [done|].
  intros E. apply Hhead. unfold shape in Hs. injection Hs as Hr _.
  destruct (layers self); simplify_eq/=. congruence.
Qed.

(** The network with layer sizes (2, 2, 1) on a batch with three
    columns. *)
Lemma predict_wrong_columns_witness :
  predict net_hidden (int_array 3 [[1; 2; 3]]) None = None.
Proof.
  apply predict_wrong_columns.
  - unfold initialized, net_hidden, int_array; simpl.
    repeat split; (done || (by repeat constructor)).
  - simpl. lia.
  - simpl. discriminate.
Defined.

(** *** ReLU *)

Lemma Qcmax_0_idemp x : Qcmax (Qcmax x 0) 0 = Qcmax x 0.
Proof.
  unfold Qcmax. destruct (Qclt_le_dec x 0) as [H|H].
  - by destruct (Qclt_le_dec 0 0).
  - destruct (Qclt_le_dec x 0) as [H'|_]; [|done].
    by apply Qclt_not_le in H'.
Qed.

(** X4. [relu] never raises and keeps the shape; applying it twice is
    applying it once; and it returns an array whose entries are already
    non-negative unchanged. *)
Theorem relu_idempotent A :
  (∃ B, relu A = Some B ∧ wf B ∧ shape B = shape A ∧ nonneg B ∧
        relu B = Some B) ∧
  (wf A → nonneg A → relu A = Some A).
Proof.
  split.
  - eexists. split; [apply relu_Some|]. split; [apply wf_build|].
    split; [apply shape_build|]. split; [by eapply relu_nonneg, relu_Some|].
    rewrite relu_Some. f_equal. rewrite nrows_build, ncols_build.
    apply build_ext. intros i j Hi Hj. rewrite get_build by done.
    apply Qcmax_0_idemp.
  - intros Hwf Hnn. rewrite relu_Some. f_equal.
    transitivity (build (nrows A) (ncols A) (get A)); [|by apply build_get].
    apply build_ext. intros i j Hi Hj.
    unfold Qcmax. destruct (Qclt_le_dec (get A i j) 0) as [H|H]; [|done].
    apply Qclt_not_le in H. by destruct H; apply Hnn.
Qed.

(** The hidden pre-activation of the small network, and its activation. *)
Lemma relu_idempotent_witness :
  relu (int_array 2 [[3; 1]; [4; 0]]) = Some (int_array 2 [[3; 1]; [4; 0]]).
Proof.
  apply (proj2 (relu_idempotent (int_array 2 [[3; 1]; [4; 0]]))).
  - by repeat constructor.
  - intros i j Hi Hj.
    destruct i as [|[|i]]; destruct j as [|[|j]];
      cbv in Hi, Hj; try lia; vm_compute; discriminate.
Defined.

(** *** The squared Frobenius norm *)

(** X5. [frob_squared] never raises on a 2-D array: the product of the
    transpose with the array always conforms.  On an array whose entries
    are all zero, also one without rows or without columns, it is 0. *)
Theorem frob_squared_zero A :
  ∃ f, frob_squared A = Some f ∧
       ((∀ i j, (i < nrows A)%nat → (j < ncols A)%nat → get A i j = 0%Qc) →
        f = 0%Qc).
Proof.
  eexists. split; [apply frob_squared_Some|].
  intros H.
  rewrite (sumf_ext _ _ (λ _, 0%Qc)); [apply sumf_zero|].
  intros j Hj. rewrite (sumf_ext _ _ (λ _, 0%Qc)); [apply sumf_zero|].
  intros i Hi. rewrite H by done. ring.
Qed.

(** X6. The squared Frobenius norm of the transpose of an array is that of
    the array, and multiplying the array by a scalar [k] multiplies it by
    [k * k]. *)
Theorem frob_squared_transpose_scale A k :
  frob_squared (transpose A) = frob_squared A ∧
  frob_squared (scale k A) = (λ f, k * k * f)%Qc <$> frob_squared A.
Proof.
  rewrite !frob_squared_Some. split.
  - f_equal. change (ncols (transpose A)) with (nrows A).
    replace (nrows (transpose A)) with (ncols A)
      by (unfold transpose; by rewrite nrows_build).
    rewrite sumf_exchange. apply sumf_ext. intros j Hj.
    apply sumf_ext. intros i Hi. unfold transpose. by rewrite get_build.
  - simpl. f_equal. change (ncols (scale k A)) with (ncols A).
    replace (nrows (scale k A)) with (nrows A)
      by (unfold scale; by rewrite nrows_build).
    assert (∀ n (g : nat → Qc) c,
              sumf n (λ i, c * g i)%Qc = (c * sumf n g)%Qc) as Hlin.
    { intros n g c. revert g. induction n as [|n IH]; intros g.
      - unfold sumf; simpl. ring.
      - rewrite !sumf_S_l, IH. ring. }
    rewrite <-Hlin. apply sumf_ext. intros j Hj.
    rewrite <-Hlin. apply sumf_ext. intros i Hi.
    unfold scale. rewrite get_build by done. ring.
Qed.

(** *** [train]: when it returns and when it raises *)

(** X7. On an initialised network with at least two layer sizes, a
    non-empty input batch with [layers[0]] columns and a target batch of
    the shape of the prediction with at least one column, a run of
    [train] raises nothing and leaves a network that is initialised for
    the same layer sizes; every error signal it computed has one row per
    sample and [layers[k+1]] columns, and every gradient has the shape of
    its weight matrix. *)
Theorem train_run_total l lr inputs outputs self :
  initialized self → (2 ≤ length (layers self))%nat →
  head (layers self) = Some (ncols inputs) → nrows inputs ≠ 0%nat →
  shape outputs = (nrows inputs, default 0%nat (last (layers self))) →
  default 0%nat (last (layers self)) ≠ 0%nat →
  ∃ self' r,
    train_run l lr inputs outputs self = Some (self', r) ∧
    layers self' = layers self ∧ initialized self' ∧
    (∀ k Z, z_primes r !! k = Some Z →
       ∃ b, layers self !! S k = Some b ∧ shape Z = (nrows inputs, b)) ∧
    (∀ k D W, deltas r !! k = Some D → weights self !! k = Some W →
       shape D = shape W).
Proof.
  intros Hinit HL Hhead HN Hout Hlast.
  destruct (train_run_shapes l lr inputs outputs self)
    as (self' & r & E & Hinit' & _ & _ & Hz & Hd); try done.
  exists self', r. split; [done|].
  split; [by apply train_run_update in E as [? _]|]. split; [done|].
  split; [done|].
  intros k D W HD HW.
  destruct (Hd k D HD) as (a & b & Ha & Hb & _ & ->).
  destruct (shaped_lookup _ _ _ k Hinit) as [HsW _].
  destruct (HsW W HW) as (a' & b' & Ha' & Hb' & _ & ->). congruence.
Qed.

(** A run on the network with layer sizes (2, 2, 1). *)
Lemma train_run_total_witness :
  ∃ self' r,
    train_run weight_decay lr_default inputs_hidden outputs_hidden net_hidden
    = Some (self', r) ∧ initialized self'.
Proof.
  destruct (train_run_total weight_decay lr_default inputs_hidden
              outputs_hidden net_hidden)
    as (self' & r & E & _ & Hinit & _).
  - unfold initialized, net_hidden, int_array; simpl.
    repeat split; (done || (by repeat constructor)).
  - simpl. lia.
  - reflexivity.
  - cbv. lia.
  - reflexivity.
  - simpl. lia.
  - exists self', r. split; [exact E|exact Hinit].
Defined.



(** When the first run raises, or no run takes place, [train] raises. *)
Lemma train_None_of_run self inputs outputs num_epochs lr t :
  train_run weight_decay lr inputs outputs self = None →
  train self inputs outputs num_epochs lr t = None.
Proof.
  intros E. unfold train.
  assert (∀ x, epoch_body weight_decay lr inputs outputs t (self, None) x
               = None) as Hbody.
  { intros x. unfold epoch_body, Py.range.
    destruct (decide (0 < t)) as [Ht|Ht].
    - rewrite seqZ_cons by done. rewrite for_cons.
      assert (run_body weight_decay lr inputs outputs (self, None) 0 = None)
        as -> by (unfold run_body; cbn [fst]; by rewrite E).
      done.
    - by rewrite seqZ_nil by lia. }
  destruct (Py.range num_epochs) as [|x xs]; [done|].
  by rewrite for_cons, Hbody.
Qed.

(** X9. [train] raises on an empty input batch, whatever the network, the
    targets and the numbers of epochs and runs (the division by
    [num_samples], when nothing before it has raised). *)
Theorem train_empty_batch self inputs outputs num_epochs lr t :
  nrows inputs = 0%nat →
  train self inputs outputs num_epochs lr t = None.
Proof.
  intros HN. apply train_None_of_run.
  destruct (train_run _ _ _ _ _) as [[self' r]|] eqn:E; [|done].
  apply train_run_inv in E as (_ & _ & _ & _ & (inv & Hinv & _) & _).
  rewrite HN in Hinv. unfold py_div in Hinv.
  by rewrite decide_True in Hinv.
Qed.

(** The network with layer sizes (2, 2, 1) on a batch without rows. *)
Lemma train_empty_batch_witness :
  train net_hidden (int_array 2 []) (int_array 1 []) 5 lr_default 1000 = None.
Proof. apply train_empty_batch. reflexivity. Defined.

(** X10. [train] raises when the number of epochs or the number of runs
    per epoch is zero or negative: [y_hat] is then read before any run
    has assigned it. *)
Theorem train_no_run self inputs outputs num_epochs lr t :
  num_epochs ≤ 0 ∨ t ≤ 0 →
  train self inputs outputs num_epochs lr t = None.
Proof.
  intros H. unfold train, Py.range.
  destruct (decide (0 < num_epochs)) as [He|He]; [|by rewrite seqZ_nil by lia].
  destruct H as [H|Ht]; [lia|].
  rewrite seqZ_cons by done. rewrite for_cons.
  assert (epoch_body weight_decay lr inputs outputs t (self, None) 0 = None)
    as -> by (unfold epoch_body, Py.range; by rewrite seqZ_nil by lia).
  done.
Qed.

(** Five epochs of no run. *)
Lemma train_no_run_witness :
  train net_hidden inputs_hidden outputs_hidden 5 lr_default 0 = None.
Proof. apply train_no_run. right. lia. Defined.

(** X11. [train] raises on a network with fewer than two layer sizes: there
    is then no activation to replace by the errors. *)
Theorem train_too_few_layers self inputs outputs num_epochs lr t :
  (length (layers self) < 2)%nat →
  train self inputs outputs num_epochs lr t = None.
Proof.
  intros HL. apply train_None_of_run.
  destruct (train_run _ _ _ _ _) as [[self' r]|] eqn:E; [|done].
  apply train_run_backward in E as (n & HL' & _). lia.
Qed.

(** A network with the single layer size 2. *)
Lemma train_too_few_layers_witness :
  train (MkModel [2%nat] [] []) inputs_hidden inputs_hidden 5 lr_default 1000
  = None.
Proof. apply train_too_few_layers. simpl. lia. Defined.

(** *** [train]: what a run computes *)

(** X12. The gradients of a run: entry 0 of [deltas] is the transposed
    input batch times the first error signal; entry [k], for [k] from 1
    to [len(layers) - 3], is the transposed cached activation [k-1] times
    the error signal [k]; every entry from [len(layers) - 2] on is still
    the weight matrix that [deltas] was copied from. *)
Theorem train_gradients l lr inputs outputs self self' r :
  train_run l lr inputs outputs self = Some (self', r) →
  length (deltas r) = length (weights self) ∧
  (∃ z0 d0, z_primes r !! 0%nat = Some z0 ∧
            matmul (transpose inputs) z0 = Some d0 ∧
            deltas r !! 0%nat = Some d0) ∧
  (∀ k, (1 ≤ k)%nat → (k + 2 < length (layers self))%nat →
        delta_step (activated r) (z_primes r) (deltas r) k) ∧
  (∀ k, (1 ≤ k)%nat → (length (layers self) ≤ k + 2)%nat →
        deltas r !! k = weights self !! k).
Proof. apply train_run_deltas. Qed.

(** A run on the network with layer sizes (2, 2, 1). *)
Lemma train_gradients_witness :
  ∃ self' r z0 d0,
    train_run weight_decay lr_default inputs_hidden outputs_hidden net_hidden
    = Some (self', r) ∧
    z_primes r !! 0%nat = Some z0 ∧
    matmul (transpose inputs_hidden) z0 = Some d0 ∧
    deltas r !! 0%nat = Some d0.
Proof.
  assert (∃ self' r,
            train_run weight_decay lr_default inputs_hidden outputs_hidden
              net_hidden = Some (self', r)) as (self' & r & E)
    by (eexists _, _; vm_compute; reflexivity).
  destruct (train_gradients _ _ _ _ _ _ _ E)
    as (_ & (z0 & d0 & Hz & Hm & Hd) & _).
  exists self', r, z0, d0.
  split; [exact E|]. split; [exact Hz|]. split; [exact Hm|exact Hd].
Defined.

(** X13. In a run whose error matrix [y_hat - outputs] has a single
    column, the loss is half the square of the sum of all squared errors;
    it is 0 when every error is 0. *)
Theorem train_loss_single_output l lr inputs outputs self self' r :
  train_run l lr inputs outputs self = Some (self', r) →
  ncols (errors r) = 1%nat →
  loss r = (1 / 2 * sum_squares (errors r) ^ 2)%Qc ∧
  ((∀ i, (i < nrows (errors r))%nat → get (errors r) i 0 = 0%Qc) →
   loss r = 0%Qc).
Proof.
  intros H Hc. pose proof (train_run_loss _ _ _ _ _ _ _ H) as [_ Hloss].
  apply train_run_inv in H as (_ & He & _).
  assert (wf (errors r)) as Hwf by (by eapply broadcast_shape).
  assert (sum_squares (errors r)
          = sumf (nrows (errors r))
              (λ i, get (errors r) i 0 * get (errors r) i 0)%Qc) as Hss.
  { rewrite sum_squares_sumf by done. apply sumf_ext. intros i Hi.
    rewrite Hc. unfold sumf. simpl. ring. }
  rewrite Hss, Hloss. split; [done|].
  set (S := sumf _ _).
  intros Hz. assert (S = 0%Qc) as ->; [|simpl; ring].
  subst S. rewrite (sumf_ext _ _ (λ _, 0%Qc)); [apply sumf_zero|].
  intros i Hi. rewrite Hz by done. ring.
Qed.

(** A run on the network with layer sizes (2, 2, 1), one output. *)
Lemma train_loss_single_output_witness :
  ∃ self' r,
    train_run weight_decay lr_default inputs_hidden outputs_hidden net_hidden
    = Some (self', r) ∧
    loss r = (1 / 2 * sum_squares (errors r) ^ 2)%Qc.
Proof.
  assert (∃ self' r,
            train_run weight_decay lr_default inputs_hidden outputs_hidden
              net_hidden = Some (self', r) ∧ ncols (errors r) = 1%nat)
    as (self' & r & E & Hc)
    by (eexists _, _; split; vm_compute; reflexivity).
  destruct (train_loss_single_output _ _ _ _ _ _ _ E Hc) as [Hl _].
  exists self', r. split; [exact E|exact Hl].
Defined.

(** X14. On an initialised network and well-shaped batches, the error
    signal at a hidden boundary is gated by its units: where the cached
    activation is positive it is the entry of the error signal behind it
    times the transposed weights, and where the cached activation is zero
    it is zero. *)
Theorem train_error_signal_gated l lr inputs outputs self k :
  initialized self → (2 ≤ length (layers self))%nat →
  head (layers self) = Some (ncols inputs) → nrows inputs ≠ 0%nat →
  shape outputs = (nrows inputs, default 0%nat (last (layers self))) →
  default 0%nat (last (layers self)) ≠ 0%nat →
  (k + 2 < length (layers self))%nat →
  ∃ self' r A Z W M Zk,
    train_run l lr inputs outputs self = Some (self', r) ∧
    activated r !! k = Some A ∧ z_primes r !! S k = Some Z ∧
    weights self !! S k = Some W ∧ matmul Z (transpose W) = Some M ∧
    z_primes r !! k = Some Zk ∧ shape Zk = shape A ∧
    ∀ i j, (i < nrows A)%nat → (j < ncols A)%nat →
      get Zk i j = if Qclt_le_dec 0 (get A i j) then get M i j else 0%Qc.
Proof.
  intros Hinit HL Hhead HN Hout Hlast Hk.
  destruct (train_run_shapes l lr inputs outputs self)
    as (self' & r & E & _ & _ & Ha & Hz & _); try done.
  destruct (train_run_backward _ _ _ _ _ _ _ E)
    as (n & HL' & _ & _ & _ & _ & _ & _ & Hstep).
  destruct (Hstep k) as (A & Z & W & M & Zk & HA & HZ & HW & HM & HZk & Hk');
    [lia|].
  exists self', r, A, Z, W, M, Zk. repeat (split; [done|]).
  destruct (Ha _ _ HA) as (a & Hla & HsA).
  destruct (Hz _ _ HZ) as (b & Hlb & HsZ).
  destruct (shaped_lookup _ _ _ (S k) Hinit) as [HsW _].
  destruct (HsW W HW) as (a' & b' & Ha' & Hb' & _ & HsW').
  simplify_eq. unfold shape in HsA, HsZ, HsW'.
  injection HsA as HrA HcA. injection HsZ as HrZ HcZ.
  injection HsW' as HrW HcW.
  apply matmul_Some in HM as [_ ->].
  unfold multiply in HZk. rewrite broadcast_same in HZk; cycle 1.
  { unfold relu_derivative. rewrite !nrows_build. congruence. }
  { unfold relu_derivative. rewrite !ncols_build. unfold transpose.
    rewrite ncols_build. congruence. }
  injection HZk as <-. rewrite ?nrows_build.
  change (ncols (transpose W)) with (nrows W).
  assert (nrows Z = nrows A) as HrZA by congruence.
  assert (nrows W = ncols A) as HrWA by congruence.
  rewrite HrZA, HrWA.
  split; [by rewrite shape_build|].
  intros i j Hi Hj. rewrite !get_build by done.
  unfold relu_derivative. rewrite get_build by done.
  destruct (Qclt_le_dec 0 (get A i j)); ring.
Qed.

(** The hidden boundary of the network with layer sizes (2, 2, 1). *)
Lemma train_error_signal_gated_witness :
  ∃ self' r A Zk,
    train_run weight_decay lr_default inputs_hidden outputs_hidden net_hidden
    = Some (self', r) ∧
    activated r !! 0%nat = Some A ∧ z_primes r !! 0%nat = Some Zk ∧
    shape Zk = shape A.
Proof.
  destruct (train_error_signal_gated weight_decay lr_default inputs_hidden
              outputs_hidden net_hidden 0)
    as (self' & r & A & Z & W & M & Zk & E & HA & _ & _ & _ & HZk & Hs & _).
  - unfold initialized, net_hidden, int_array; simpl.
    repeat split; (done || (by repeat constructor)).
  - simpl. lia.
  - reflexivity.
  - cbv. lia.
  - reflexivity.
  - simpl. lia.
  - simpl. lia.
  - exists self', r, A, Zk.
    split; [exact E|]. split; [exact HA|]. split; [exact HZk|exact Hs].
Defined.

(** *** [train] on a network without hidden layer *)

Lemma train_run_single_weight l lr inputs outputs self self' r :
  (length (weights self) ≤ 1)%nat →
  train_run l lr inputs outputs self = Some (self', r) →
  self' = self ∧ predict self inputs None = Some (y_hat r, None).
Proof.
  intros Hw E.
  pose proof (train_run_inv _ _ _ _ _ _ _ E) as (Hp & _).
  apply train_run_update in E as (Hl & _ & _ & Hsame & _).
  split.
  - destruct self as [ls ws bs], self' as [ls' ws' bs']. simpl in *.
    f_equal; [done|apply list_eq..]; intros k; apply Hsame; lia.
  - by rewrite (predict_cache_irrelevant_aux self inputs []), Hp.
Qed.

Lemma run_loop_single_weight l lr inputs outputs self : ∀ (xs : list Z) st st',
  (length (weights self) ≤ 1)%nat →
  st.1 = self →
  (∀ y, st.2 = Some y → predict self inputs None = Some (y, None)) →
  Py.for_ xs (run_body l lr inputs outputs) st = Some st' →
  st'.1 = self ∧
  (∀ y, st'.2 = Some y → predict self inputs None = Some (y, None)).
Proof.
  induction xs as [|x xs IH]; intros st st' Hw Hs Hy H; [by simplify_eq/=|].
  rewrite for_cons in H.
  destruct (run_body l lr inputs outputs st x) as [st1|] eqn:Eb; [|done].
  cbn [mbind option_bind] in H. unfold run_body in Eb. rewrite Hs in Eb.
  destruct (train_run l lr inputs outputs self) as [[self1 r]|] eqn:Er;
    [|done].
  simpl in Eb. injection Eb as <-.
  apply train_run_single_weight in Er as [-> Hp]; [|done].
  eapply IH; [done| | |exact H]; [done|].
  simpl. by intros y [= <-].
Qed.

Lemma epoch_loop_single_weight l lr inputs outputs t self :
  ∀ (xs : list Z) st st',
  (length (weights self) ≤ 1)%nat →
  st.1 = self →
  (∀ y, st.2 = Some y → predict self inputs None = Some (y, None)) →
  Py.for_ xs (epoch_body l lr inputs outputs t) st = Some st' →
  st'.1 = self ∧
  (∀ y, st'.2 = Some y → predict self inputs None = Some (y, None)).
Proof.
  induction xs as [|x xs IH]; intros st st' Hw Hs Hy H; [by simplify_eq/=|].
  rewrite for_cons in H.
  destruct (epoch_body l lr inputs outputs t st x) as [st1|] eqn:Eb; [|done].
  cbn [mbind option_bind] in H. unfold epoch_body in Eb.
  destruct (Py.for_ (Py.range t) _ st) as [st2|] eqn:Er; [|done].
  cbn [mbind option_bind] in Eb.
  destruct (st2.2) eqn:E2; [|done]. simpl in Eb. injection Eb as <-.
  apply (run_loop_single_weight _ _ _ _ self) in Er as [Hs2 Hy2]; [|done..].
  eapply IH; [done| | |exact H]; done.
Qed.

(** X15. A network with two layer sizes (no hidden layer) is never changed
    by [train]: every run leaves its weight matrix and its bias as they
    were, and [train] returns the network it was given with the
    prediction of that very network, whatever the learning rate and the
    numbers of epochs and runs. *)
Theorem train_no_hidden_layer self inputs outputs num_epochs lr t self' y :
  (length (weights self) ≤ 1)%nat →
  train self inputs outputs num_epochs lr t = Some (self', y) →
  self' = self ∧ predict self inputs None = Some (y, None).
Proof.
  intros Hw H. unfold train in H.
  destruct (Py.for_ (Py.range num_epochs) _ (self, None)) as [[self1 y1]|]
    eqn:El; [|done].
  cbn [mbind option_bind] in H. destruct y1 as [y1|]; [|done].
  simpl in H. injection H as <- <-.
  apply (epoch_loop_single_weight _ _ _ _ _ self) in El as [Hs Hy];
    [|done..].
  split; [done|]. by apply Hy.
Qed.

(** Three epochs of four runs on the network with layer sizes (1, 1). *)
Lemma train_no_hidden_layer_witness :
  ∃ y,
    train net_linear (int_array 1 [[3]]) (int_array 1 [[1]]) 3 lr_default 4
    = Some (net_linear, y) ∧
    predict net_linear (int_array 1 [[3]]) None = Some (y, None).
Proof.
  assert (∃ self' y,
            train net_linear (int_array 1 [[3]]) (int_array 1 [[1]]) 3
              lr_default 4 = Some (self', y)) as (self' & y & E)
    by (eexists _, _; vm_compute; reflexivity).
  destruct (train_no_hidden_layer net_linear _ _ _ _ _ _ _
              ltac:(simpl; lia) E) as [-> Hp].
  exists y. split; [exact E|exact Hp].
Defined.

(** *** [predict] and the depth of the network *)

Lemma small_int_depth (ls : list nat) :
  ls ≠ [] →
  Py.is_small_int (Py.len ls - 2) = bool_decide (length ls ≤ 258)%nat.
Proof.
  intros Hne.
  assert (1 ≤ Py.len ls)
    by (unfold Py.len; destruct ls; simpl; [done|lia]).
  unfold Py.is_small_int, Py.len in *.
  destruct (bool_decide_reflect (length ls ≤ 258)%nat).
  - apply andb_true_iff. split; [apply Z.leb_le|apply Z.leb_le]; lia.
  - apply andb_false_iff. right. apply Z.leb_gt. lia.
Qed.

(** X26. On an initialised network of at most 258 layer sizes and an
    input batch with [layers[0]] columns, [predict] is the forward pass
    of the design: it returns a matrix with as many rows as the input and
    [layers[last]] columns; every layer transition computes the product
    of what it is fed with [weights[i]] plus the bias row on every sample
    row, through ReLU except at the final transition; the cache, when
    one is passed, receives exactly these outputs, so the input batch is
    not appended to it. *)
Theorem predict_forward_shallow self input save_activated :
  initialized self → head (layers self) = Some (ncols input) →
  (length (layers self) ≤ 258)%nat →
  let acts := forward input (weights self) (biases self) in
  let pred := default input (last acts) in
  predict self input save_activated
  = Some (pred, (λ l, l ++ acts) <$> save_activated) ∧
  shape pred = (nrows input, default 0%nat (last (layers self))) ∧
  (wf input → wf pred) ∧
  length acts = (length (layers self) - 1)%nat ∧
  ∀ i W b,
    weights self !! i = Some W → biases self !! i = Some b →
    acts !! i
    = Some (layer_output (bool_decide (i + 2 = length (layers self))%nat)
              (layer_input input acts i) W b).
Proof.
  intros Hinit Hhead Hdepth acts pred.
  assert (layers self ≠ []) as Hne by (by destruct (layers self)).
  destruct (initialized_length self Hinit Hne) as [HL Hlb].
  pose proof (predict_Some self input save_activated Hinit Hhead) as Hp.
  cbv zeta in Hp. rewrite small_int_depth in Hp by done.
  rewrite bool_decide_true in Hp by done.
  split; [exact Hp|].
  destruct (transitions_shape true _ _ _ input Hinit Hhead) as [Hs Hw].
  split; [done|]. split; [done|].
  split.
  { subst acts. unfold forward. rewrite transitions_length by done. lia. }
  intros i W b HW Hb. subst acts. unfold forward.
  rewrite (transitions_lookup _ _ _ _ _ W b) by done.
  rewrite andb_true_r. do 2 f_equal. apply bool_decide_ext. lia.
Qed.

(** [predict] on the network with layer sizes (2, 2, 1) and two samples. *)
Lemma predict_forward_shallow_witness :
  ∃ pred,
    predict net_hidden inputs_hidden (Some [])
    = Some (pred, Some (forward inputs_hidden (weights net_hidden)
                          (biases net_hidden))) ∧
    shape pred = (2%nat, 1%nat).
Proof.
  edestruct (predict_forward_shallow net_hidden inputs_hidden (Some []))
    as (Hp & Hs & _).
  - unfold initialized, net_hidden, int_array; simpl.
    repeat split; (done || (by repeat constructor)).
  - reflexivity.
  - simpl. lia.
  - eexists. split; [exact Hp|exact Hs].
Defined.

(** X27. On an initialised network of 259 layer sizes or more, [predict]
    puts every transition through ReLU, the final one included: the test
    [i is not (len(self.layers) - 2)] is then true at every [i].  The
    prediction has the shape of the design's, and none of its entries is
    negative. *)
Theorem predict_deep_relu_everywhere self input save_activated :
  initialized self → head (layers self) = Some (ncols input) →
  (259 ≤ length (layers self))%nat →
  let acts := transitions false input (weights self) (biases self) in
  let pred := default input (last acts) in
  predict self input save_activated
  = Some (pred, (λ l, l ++ acts) <$> save_activated) ∧
  shape pred = (nrows input, default 0%nat (last (layers self))) ∧
  nonneg pred ∧
  length acts = (length (layers self) - 1)%nat ∧
  ∀ i W b,
    weights self !! i = Some W → biases self !! i = Some b →
    acts !! i = Some (layer_output false (layer_input input acts i) W b).
Proof.
  intros Hinit Hhead Hdepth acts pred.
  assert (layers self ≠ []) as Hne by (by destruct (layers self)).
  destruct (initialized_length self Hinit Hne) as [HL Hlb].
  pose proof (predict_Some self input save_activated Hinit Hhead) as Hp.
  cbv zeta in Hp. rewrite small_int_depth in Hp by done.
  rewrite bool_decide_false in Hp by lia.
  split; [exact Hp|].
  destruct (transitions_shape false _ _ _ input Hinit Hhead) as [Hs Hw].
  split; [done|].
  assert (∀ i W b,
            weights self !! i = Some W → biases self !! i = Some b →
            acts !! i
            = Some (layer_output false (layer_input input acts i) W b))
    as Hacts.
  { intros i W b HW Hb. subst acts.
    rewrite (transitions_lookup _ _ _ _ _ W b) by done.
    by rewrite andb_false_r. }
  assert (length acts = length (weights self)) as Hla
    by (subst acts; by rewrite transitions_length).
  split; [|split; [lia|done]].
  assert (is_Some (last (weights self))) as [W HW].
  { rewrite last_is_Some. intros E. rewrite E in HL. simpl in HL. lia. }
  assert (is_Some (last (biases self))) as [b Hb].
  { rewrite last_is_Some. intros E. rewrite E in Hlb. simpl in Hlb.
    rewrite <-Hlb in HL. lia. }
  rewrite last_lookup in HW, Hb. rewrite Hlb in Hb.
  subst pred. rewrite last_lookup, Hla, (Hacts _ W b) by done. simpl.
  intros i j Hi Hj. unfold layer_output in *.
  rewrite nrows_build in Hi. simpl in Hj. rewrite get_build by done.
  apply Qcmax_0_nonneg.
Qed.

(** The network of 259 layer sizes. *)
Lemma predict_deep_relu_everywhere_witness :
  ∃ pred,
    predict net_deep input_deep None = Some (pred, None) ∧ nonneg pred.
Proof.
  edestruct (predict_deep_relu_everywhere net_deep input_deep None)
    as (Hp & _ & Hnn & _).
  - unfold initialized, net_deep, int_array; simpl.
    repeat split; (done || (by repeat constructor)).
  - reflexivity.
  - simpl. lia.
  - eexists. split; [exact Hp|exact Hnn].
Defined.

(** ** The polynomial regression notebook: properties

    *** The constructor *)

Lemma nth_power x i j :
  (j < length x)%nat → nth j (Regression.power x i) 0%Qc
                       = (nth j x 0 ^ Z.to_nat i)%Qc.
Proof.
  intros Hj. unfold Regression.power.
  destruct (lookup_lt_is_Some_2 x j Hj) as [v Hv].
  rewrite (nth_lookup_Some _ _ _ _ Hv).
  apply nth_lookup_Some. by rewrite list_lookup_fmap, Hv.
Qed.

Lemma vstack_loop x : ∀ m : nat,
  ∃ X,
    Py.for_ (seqZ 1 (Z.of_nat (S m)))
      (λ x_matrix i, Regression.vstack x_matrix (Regression.power x i))
      (Regression.ones (length x))
    = Some (Regression.Arr2 X) ∧ is_powers x (S m) X.
Proof.
  induction m as [|m (X & E & Hwf & Hs & Hget)].
  - eexists. split.
    { rewrite seqZ_cons by lia. rewrite for_cons. simpl.
      rewrite decide_True; [done|].
      unfold Regression.power. by rewrite length_replicate, length_fmap. }
    split; [|split].
    + repeat constructor; simpl.
      unfold Regression.power. by rewrite length_replicate, length_fmap.
    + unfold shape, nrows. simpl. by rewrite length_replicate.
    + intros i j Hi Hj. rewrite length_replicate.
      destruct i as [|[|i]]; [| |lia]; unfold get; simpl.
      * apply nth_lookup_Some. by apply lookup_replicate_2.
      * rewrite nth_power by done. simpl. done.
  - unfold shape in Hs. injection Hs as Hr Hc.
    eexists. split.
    { rewrite seqZ_S, for_app, E. cbn [mbind option_bind Py.for_].
      unfold Regression.vstack. rewrite decide_True; [done|].
      unfold Regression.power. by rewrite length_fmap. }
    split; [|split].
    + unfold wf. simpl. apply Forall_app. split; [done|].
      repeat constructor. unfold Regression.power. by rewrite length_fmap.
    + unfold shape, nrows in *. simpl. rewrite length_app. simpl.
      rewrite Hr, Hc. f_equal. lia.
    + intros i j Hi Hj. unfold get. simpl.
      unfold nrows in Hr.
      destruct (decide (i ≤ S m)%nat) as [Hle|Hgt].
      * rewrite app_nth1 by lia. by apply Hget.
      * assert (i = S (S m)) as -> by lia.
        rewrite app_nth2 by lia. rewrite Hr, Nat.sub_diag. simpl.
        rewrite nth_power by done.
        by replace (Z.to_nat (1 + Z.of_nat (S m))) with (S (S m)) by lia.
Qed.

(** X16. The constructor of the regression model.  For an order [n >= 1]
    it never raises and stores the sample count, the targets and, as
    [x_matrix], the 2-D array with [n + 1] rows whose row [i] holds the
    [i]-th powers of the inputs, next to a weight row of [n + 1] entries;
    for an order below -1 it raises (a negative dimension). *)
Theorem regression_init {G} (random : G → nat → nat → ndarray * G) g x y n :
  (∀ g a b, wf (random g a b).1 ∧ shape (random g a b).1 = (a, b)) →
  (1 ≤ n →
   ∃ self g' X,
     Regression.init random g x y n = Some (self, g') ∧
     Regression.x_matrix self = Regression.Arr2 X ∧
     is_powers x (Z.to_nat n) X ∧
     wf (Regression.weights self) ∧
     shape (Regression.weights self) = (1%nat, S (Z.to_nat n)) ∧
     Regression.input_size self = Py.len x ∧
     Regression.y self = y ∧ Regression.n self = n) ∧
  (n < -1 → Regression.init random g x y n = None).
Proof.
  intros Hrandom. split.
  - intros Hn. unfold Regression.init.
    destruct (vstack_loop x (Z.to_nat n - 1)) as (X & E & HX).
    replace (Z.of_nat (S (Z.to_nat n - 1))) with n in E by lia.
    replace (S (Z.to_nat n - 1)) with (Z.to_nat n) in HX by lia.
    unfold Py.len. rewrite Nat2Z.id, E. cbn [mbind option_bind].
    rewrite decide_False by lia.
    destruct (random g 1%nat (Z.to_nat (n + 1))) as [W g'] eqn:EW.
    pose proof (Hrandom g 1%nat (Z.to_nat (n + 1))) as [HwW HsW].
    rewrite EW in HwW, HsW. simpl in HwW, HsW.
    exists (Regression.MkModel y n (Z.of_nat (length x)) (Regression.Arr2 X) W),
      g', X.
    repeat (split; [done|]). simpl. split; [|done].
    rewrite HsW. f_equal. lia.
  - intros Hn. unfold Regression.init.
    rewrite seqZ_nil by lia. simpl. by rewrite decide_True by lia.
Qed.

(** The cubic example of the notebook on four points. *)
Lemma regression_init_witness :
  ∃ self X,
    Regression.init random_zero () x_cubic y_cubic 3 = Some (self, ()) ∧
    Regression.x_matrix self = Regression.Arr2 X ∧ is_powers x_cubic 3 X.
Proof.
  destruct (regression_init random_zero () x_cubic y_cubic 3)
    as [H _].
  - intros g a b. split; [apply wf_build|apply shape_build].
  - destruct H as (self & [] & X & E & HX & Hp & _); [lia|].
    exists self, X. split; [exact E|]. split; [exact HX|exact Hp].
Defined.

(** *** One run of the training loop *)

Lemma regression_run lr x d self W out run :
  fitted x d self → x ≠ [] → wf W → shape W = (1%nat, S d) →
  Regression.run_body lr self (W, out) run
  = Some (gradient_step lr x (Regression.y self) W,
          if decide (run `mod` 100 = 99)
          then out ++ [Regression.Run run
                         (half_mse_poly x (Regression.y self) W)]
          else out).
Proof.
  intros (X & HX & (HwX & HsX & HgX) & HN & Hy) Hx HwW HsW.
  assert (length x ≠ 0%nat) as HN0 by (by destruct x).
  unfold shape in HsX, HsW. injection HsX as HrX HcX.
  injection HsW as HrW HcW.
  unfold Regression.run_body. rewrite HX, HN.
  cbn [Regression.matmul_nd].
  destruct (matmul_shape W X) as (P & EP & HsP & _); [congruence|].
  pose proof EP as EP'. apply matmul_Some in EP' as [_ HP].
  rewrite EP. cbn [mbind option_bind].
  cbn [Regression.subtract_1d].
  destruct (broadcast_same_shape Qcminus P (as_row (Regression.y self)))
    as (E & HE & HsE & HwE).
  { rewrite HsP, HrW, HcX. unfold as_row, shape, nrows. simpl.
    by rewrite Hy. }
  pose proof HE as HE'. rewrite broadcast_same in HE'; cycle 1.
  { rewrite HP, nrows_build. by rewrite HrW. }
  { rewrite HP. simpl. congruence. }
  injection HE' as HEq.
  fold subtract in HE. rewrite HE. cbn [mbind option_bind].
  assert (∀ i, (i < length x)%nat →
               get E 0 i = residual W x (Regression.y self) i) as HgE.
  { intros i Hi. rewrite <-HEq, HP, nrows_build, ncols_build.
    rewrite !get_build by lia. unfold residual, poly_eval, as_row, get.
    simpl. f_equal.
    assert (length (nth 0 (rows W) []) = S d) as ->.
    { unfold nrows in HrW. destruct (rows W) as [|row rs] eqn:Er; [done|].
      unfold wf in HwW. rewrite Er in HwW. apply Forall_cons in HwW as [Hl _].
      simpl. congruence. }
    rewrite HcW. apply sumf_ext. intros k Hk. f_equal.
    specialize (HgX k i ltac:(lia) Hi). unfold get in HgX. done. }
  assert (nrows E = 1%nat ∧ ncols E = length x) as [HrE HcE].
  { rewrite HsP, HrW, HcX in HsE. unfold shape in HsE. by injection HsE. }
  assert (Regression.row0 (Regression.Arr2 E)
          = Some ((λ i, get E 0 i) <$> seq 0 (length x))) as Hrow0.
  { simpl. rewrite <-(build_get E HwE) at 1. by rewrite HrE, HcE. }
  assert (py_div 1 (of_int (Py.len x)) = Some (1 / of_int (Py.len x))%Qc)
    as Hdiv.
  { unfold py_div. rewrite decide_False; [done|]. by apply of_int_nonzero. }
  assert (py_div 1 (of_int (2 * Py.len x))
          = Some (1 / of_int (2 * Py.len x))%Qc) as Hdiv2.
  { unfold py_div. rewrite decide_False; [done|]. unfold Py.len.
    replace (2 * Z.of_nat (length x)) with (Z.of_nat (2 * length x)) by lia.
    apply of_int_nonzero. lia. }
  assert ((if decide (run `mod` 100 = 99)
           then c ← py_div 1 (of_int (2 * Py.len x));
                e0 ← Regression.row0 (Regression.Arr2 E);
                d0 ← dot e0 e0;
                Some (out ++ [Regression.Run run (c * d0)%Qc])
           else Some out)
          = Some (if decide (run `mod` 100 = 99)
                  then out ++ [Regression.Run run
                                 (half_mse_poly x (Regression.y self) W)]
                  else out)) as ->.
  { case_decide; [|done]. rewrite Hdiv2, Hrow0. cbn [mbind option_bind].
    rewrite dot_self_fmap. cbn [mbind option_bind]. do 4 f_equal.
    unfold half_mse_poly. f_equal. apply sumf_ext. intros i Hi.
    by rewrite HgE. }
  cbn [mbind option_bind]. rewrite Hdiv. cbn [mbind option_bind].
  cbn [Regression.scale_nd Regression.transpose_nd Regression.matmul_nd].
  destruct (matmul_shape (scale (1 / of_int (Py.len x)) E) (transpose X))
    as (M & EM & HsM & _).
  { unfold scale, transpose. rewrite nrows_build. simpl. congruence. }
  pose proof EM as EM'. apply matmul_Some in EM' as [_ HM].
  assert (nrows M = 1%nat ∧ ncols M = S d) as [HrM HcM].
  { unfold shape in HsM. injection HsM as -> ->. unfold scale, transpose.
    rewrite nrows_build. simpl. by rewrite HrE, HrX. }
  rewrite EM. cbn [mbind option_bind Regression.scale_value].
  cbn [Regression.isub Regression.scale_nd].
  assert (shape (scale lr M) = shape W) as HsS.
  { unfold scale at 1. rewrite shape_build. unfold shape. congruence. }
  destruct (broadcast_same_shape Qcminus W (scale lr M)) as (R & HR & HsR & _);
    [done|].
  pose proof HR as HR'. unfold shape in HsS. injection HsS as HrS HcS.
  rewrite broadcast_same in HR' by done. injection HR' as HReq.
  fold subtract in HR. rewrite HR. cbn [mbind option_bind].
  rewrite (decide_True _ _ HsR). cbn [mbind option_bind]. do 2 f_equal.
  rewrite <-HReq. unfold gradient_step. rewrite HrW.
  apply build_ext. intros i j Hi Hj. assert (i = 0%nat) as -> by lia.
  f_equal. unfold scale at 1. rewrite get_build by lia. f_equal.
  rewrite HM, get_build; cycle 1.
  { unfold scale. rewrite nrows_build. lia. }
  { unfold transpose. simpl. lia. }
  change (ncols (scale (1 / of_int (Py.len x)) E)) with (ncols E).
  rewrite HcE. apply sumf_ext. intros k Hk.
  unfold scale, transpose. rewrite !get_build by lia.
  rewrite HgE by done. rewrite HgX by lia. ring.
Qed.

Lemma is_powers_powers x d : is_powers x d (powers x d).
Proof.
  split; [apply wf_build|]. split; [apply shape_build|].
  intros i j Hi Hj. unfold powers. by rewrite get_build by lia.
Qed.

Lemma fitted_cubic : fitted x_cubic 3 model_cubic.
Proof.
  exists (powers x_cubic 3). split; [done|].
  split; [apply is_powers_powers|done].
Qed.

Lemma gradient_step_shape lr x y W :
  wf (gradient_step lr x y W) ∧
  shape (gradient_step lr x y W) = (1%nat, ncols W).
Proof. split; [apply wf_build|apply shape_build]. Qed.

Lemma steps_shape lr x y W d k :
  wf W → shape W = (1%nat, d) →
  wf (Nat.iter k (gradient_step lr x y) W) ∧
  shape (Nat.iter k (gradient_step lr x y) W) = (1%nat, d).
Proof.
  intros Hw Hs. induction k as [|k [IHw IHs]]; [done|].
  rewrite Nat.iter_succ. split; [apply wf_build|].
  rewrite (proj2 (gradient_step_shape _ _ _ _)).
  unfold shape in IHs. injection IHs as _ IHc. by rewrite IHc.
Qed.

(** X17. One run of the training loop of the regression model, on
    [n + 1] weights and at least one sample, is one step of gradient
    descent on the halved mean squared error of the polynomial: weight
    [j] decreases by [lr] times the mean over the samples of the residual
    times the [j]-th power of the input.  The run raises nothing, prints
    the halved mean squared error of the weights before the step exactly
    when its number is 99 modulo 100, and leaves a row of [n + 1]
    weights. *)
Theorem regression_run_step lr x d self W out run :
  fitted x d self → x ≠ [] → wf W → shape W = (1%nat, S d) →
  Regression.run_body lr self (W, out) run
  = Some (gradient_step lr x (Regression.y self) W,
          if decide (run `mod` 100 = 99)
          then out ++ [Regression.Run run
                         (half_mse_poly x (Regression.y self) W)]
          else out) ∧
  wf (gradient_step lr x (Regression.y self) W) ∧
  shape (gradient_step lr x (Regression.y self) W) = (1%nat, S d).
Proof.
  intros Hf Hx Hw Hs. split; [by eapply regression_run|].
  destruct (gradient_step_shape lr x (Regression.y self) W) as [? ->].
  split; [done|]. unfold shape in Hs. injection Hs as _ Hc. by rewrite Hc.
Qed.

(** Run 99 on the cubic example. *)
Lemma regression_run_step_witness :
  Regression.run_body lr_default model_cubic (w_cubic, []) 99
  = Some (gradient_step lr_default x_cubic y_cubic w_cubic,
          [Regression.Run 99 (half_mse_poly x_cubic y_cubic w_cubic)]).
Proof.
  destruct (regression_run_step lr_default x_cubic 3 model_cubic w_cubic
              [] 99) as [E _].
  - exact fitted_cubic.
  - discriminate.
  - by repeat constructor.
  - reflexivity.
  - exact E.
Defined.

(** *** The loops of [train] *)

Lemma regression_run_loop lr x d self W out :
  fitted x d self → x ≠ [] → wf W → shape W = (1%nat, S d) →
  ∀ t : nat,
    Py.for_ (Py.range (Z.of_nat t)) (Regression.run_body lr self) (W, out)
    = Some (Nat.iter t (gradient_step lr x (Regression.y self)) W,
            out ++ run_log lr x (Regression.y self) W t).
Proof.
  intros Hf Hx Hw Hs t. induction t as [|t IH].
  - simpl. by rewrite app_nil_r.
  - rewrite range_S, for_app, IH. cbn [mbind option_bind].
    rewrite for_cons.
    destruct (steps_shape lr x (Regression.y self) W (S d) t Hw Hs)
      as [Hw' Hs'].
    rewrite (regression_run lr x d) by done.
    cbn [mbind option_bind Py.for_]. rewrite Nat.iter_succ. do 2 f_equal.
    unfold run_log. rewrite seq_S, flat_map_app. simpl.
    rewrite app_nil_r.
    destruct (decide (Z.of_nat t `mod` 100 = 99));
      [by rewrite app_assoc|by rewrite app_nil_r].
Qed.

Lemma range_to_nat n : Py.range n = Py.range (Z.of_nat (Z.to_nat n)).
Proof. unfold Py.range, seqZ. by rewrite Nat2Z.id. Qed.

Lemma regression_epoch_loop lr x d self W (t : Z) :
  fitted x d self → x ≠ [] → wf W → shape W = (1%nat, S d) →
  ∀ (e : nat) out,
    Py.for_ (Py.range (Z.of_nat e)) (Regression.epoch_body lr t self) (W, out)
    = Some (Nat.iter (e * Z.to_nat t)
              (gradient_step lr x (Regression.y self)) W,
            out ++ flat_map
                     (epoch_log lr x (Regression.y self) W (Z.to_nat t))
                     (seq 0 e)).
Proof.
  intros Hf Hx Hw Hs e out. induction e as [|e IH].
  - simpl. by rewrite app_nil_r.
  - rewrite range_S, for_app, IH. cbn [mbind option_bind].
    rewrite for_cons. cbn [Py.for_]. unfold Regression.epoch_body.
    destruct (steps_shape lr x (Regression.y self) W (S d)
                (e * Z.to_nat t) Hw Hs) as [Hw' Hs'].
    rewrite (range_to_nat t), (regression_run_loop lr x d) by done.
    cbn [mbind option_bind Py.for_].
    rewrite <-Nat.iter_add. do 2 f_equal.
    rewrite seq_S, flat_map_app. simpl. rewrite app_nil_r.
    by rewrite <-!app_assoc.
Qed.

Lemma regression_train_closed lr x d self (num_epochs t : Z) :
  fitted x d self → x ≠ [] →
  wf (Regression.weights self) →
  shape (Regression.weights self) = (1%nat, S d) →
  Regression.train self num_epochs lr t
  = Some (Regression.MkModel (Regression.y self) (Regression.n self)
            (Regression.input_size self) (Regression.x_matrix self)
            (Nat.iter (Z.to_nat num_epochs * Z.to_nat t)
               (gradient_step lr x (Regression.y self))
               (Regression.weights self)),
          flat_map (epoch_log lr x (Regression.y self)
                      (Regression.weights self) (Z.to_nat t))
            (seq 0 (Z.to_nat num_epochs))).
Proof.
  intros Hf Hx Hw Hs. unfold Regression.train.
  by rewrite (range_to_nat num_epochs), (regression_epoch_loop lr x d).
Qed.

(** X18. [train] on the regression model, with [n + 1] weights and at
    least one sample, raises nothing and is gradient descent and nothing
    else: the weights it leaves are the starting weights after
    [num_epochs * t] gradient steps (none when one of the two counts is
    not positive), the other attributes are unchanged,
    and the printed lines are, epoch by epoch, the losses of the runs
    numbered 99 modulo 100 followed by the weights at the end of the
    epoch. *)
Theorem regression_train_steps lr x d self (num_epochs t : Z) :
  fitted x d self → x ≠ [] →
  wf (Regression.weights self) →
  shape (Regression.weights self) = (1%nat, S d) →
  Regression.train self num_epochs lr t
  = Some (Regression.MkModel (Regression.y self) (Regression.n self)
            (Regression.input_size self) (Regression.x_matrix self)
            (Nat.iter (Z.to_nat num_epochs * Z.to_nat t)
               (gradient_step lr x (Regression.y self))
               (Regression.weights self)),
          flat_map (epoch_log lr x (Regression.y self)
                      (Regression.weights self) (Z.to_nat t))
            (seq 0 (Z.to_nat num_epochs))).
Proof. apply regression_train_closed. Qed.

(** Two epochs of 100 runs on the cubic example. *)
Lemma regression_train_steps_witness :
  ∃ self' out,
    Regression.train model_cubic 2 lr_default 100 = Some (self', out).
Proof.
  pose proof (regression_train_steps lr_default x_cubic 3 model_cubic
                2 100 fitted_cubic) as E.
  eexists _, _. apply E.
  - discriminate.
  - by repeat constructor.
  - reflexivity.
Defined.

(** *** Exact fits *)

Lemma gradient_step_fixed lr x y W d :
  wf W → shape W = (1%nat, d) →
  (∀ i, (i < length x)%nat → residual W x y i = 0%Qc) →
  gradient_step lr x y W = W.
Proof.
  intros Hw Hs Hfit. unfold shape in Hs. injection Hs as Hr Hc.
  rewrite <-(build_get W Hw) at 2. rewrite Hr. unfold gradient_step.
  apply build_ext. intros i j Hi Hj. assert (i = 0%nat) as -> by lia.
  rewrite (sumf_ext _ _ (λ _, 0%Qc)).
  - rewrite sumf_zero. ring.
  - intros k Hk. rewrite Hfit by done. ring.
Qed.

Lemma steps_fixed lr x y W d k :
  wf W → shape W = (1%nat, d) →
  (∀ i, (i < length x)%nat → residual W x y i = 0%Qc) →
  Nat.iter k (gradient_step lr x y) W = W.
Proof.
  intros Hw Hs Hfit. induction k as [|k IH]; [done|].
  rewrite Nat.iter_succ, IH. by eapply gradient_step_fixed.
Qed.

Lemma half_mse_poly_fixed x y W :
  (∀ i, (i < length x)%nat → residual W x y i = 0%Qc) →
  half_mse_poly x y W = 0%Qc.
Proof.
  intros Hfit. unfold half_mse_poly. rewrite (sumf_ext _ _ (λ _, 0%Qc)).
  - rewrite sumf_zero. ring.
  - intros k Hk. rewrite Hfit by done. ring.
Qed.

Lemma elem_of_run_log lr x y W t l :
  l ∈ run_log lr x y W t →
  ∃ r : nat, l = Regression.Run (Z.of_nat r)
                   (half_mse_poly x y (Nat.iter r (gradient_step lr x y) W)).
Proof.
  unfold run_log. rewrite list_elem_of_In, in_flat_map.
  intros (r & _ & Hl). exists r. case_decide; [|done].
  by destruct Hl as [<-|[]].
Qed.

(** X19. Weights that fit every sample exactly are a fixed point of
    training: [train] returns the model as it was, whatever the learning
    rate and the numbers of epochs and runs, every loss it prints is 0
    and every weight row it prints is the starting one. *)
Theorem regression_exact_fit lr x d self (num_epochs t : Z) :
  fitted x d self → x ≠ [] →
  wf (Regression.weights self) →
  shape (Regression.weights self) = (1%nat, S d) →
  (∀ i, (i < length x)%nat →
        poly_eval (nth 0%nat (rows (Regression.weights self)) []) (nth i x 0%Qc)
        = nth i (Regression.y self) 0%Qc) →
  ∃ out,
    Regression.train self num_epochs lr t = Some (self, out) ∧
    ∀ l, l ∈ out →
         (∃ r, l = Regression.Run r 0%Qc) ∨
         (∃ e, l = Regression.Epoch e (Regression.weights self)).
Proof.
  intros Hf Hx Hw Hs Hfit.
  assert (∀ i, (i < length x)%nat →
               residual (Regression.weights self) x (Regression.y self) i
               = 0%Qc) as Hres.
  { intros i Hi. unfold residual. rewrite Hfit by done. ring. }
  eexists. split.
  - rewrite (regression_train_closed lr x d) by done.
    rewrite (steps_fixed _ _ _ _ (S d)) by done. by destruct self.
  - intros l. rewrite list_elem_of_In, in_flat_map.
    intros (e & _ & Hl). apply list_elem_of_In in Hl.
    unfold epoch_log in Hl. rewrite !(steps_fixed _ _ _ _ (S d)) in Hl by done.
    apply elem_of_app in Hl as [Hl|Hl].
    + left. apply elem_of_run_log in Hl as [r ->]. eexists.
      rewrite (steps_fixed _ _ _ _ (S d)) by done.
      by rewrite half_mse_poly_fixed.
    + right. apply list_elem_of_singleton in Hl as ->. by eexists.
Qed.

(** The cubic example, started from the coefficients (1, 1, 3, 4) of the
    polynomial that generated it. *)
Lemma regression_exact_fit_witness :
  ∃ out, Regression.train model_cubic 5 lr_default 1000
         = Some (model_cubic, out).
Proof.
  destruct (regression_exact_fit lr_default x_cubic 3 model_cubic 5 1000)
    as (out & E & _).
  - exact fitted_cubic.
  - discriminate.
  - by repeat constructor.
  - reflexivity.
  - intros i Hi. simpl in Hi.
    destruct i as [|[|[|[|i]]]]; [| | | |lia]; by apply Qc_is_canon.
  - exists out. exact E.
Defined.

(** *** What [train] prints *)

Lemma run_body_log lr self W out run W' out' :
  Regression.run_body lr self (W, out) run = Some (W', out') →
  ∃ m, out' = out ++ (if decide (run `mod` 100 = 99)
                      then [Regression.Run run m] else []).
Proof.
  unfold Regression.run_body. intros H.
  destruct (Regression.matmul_nd _ _) as [y_pred|]; [|done].
  cbn [mbind option_bind] in H.
  destruct (Regression.subtract_1d _ _) as [e|]; [|done].
  cbn [mbind option_bind] in H.
  destruct (decide (run `mod` 100 = 99)) as [H99|H99].
  - destruct (py_div 1 (of_int (2 * _))) as [c|]; [|done].
    cbn [mbind option_bind] in H.
    destruct (Regression.row0 e) as [v0|]; [|done].
    cbn [mbind option_bind] in H.
    destruct (dot v0 v0) as [d|]; [|done].
    cbn [mbind option_bind] in H.
    exists (c * d)%Qc. by simplify_option_eq.
  - exists 0%Qc. rewrite app_nil_r. by simplify_option_eq.
Qed.

Lemma run_loop_log lr self rs : ∀ W out W' out',
  Py.for_ rs (Regression.run_body lr self) (W, out) = Some (W', out') →
  ∃ ext, out' = out ++ ext ∧
         run_numbers ext = filter (λ r, r `mod` 100 = 99) rs ∧
         epoch_numbers ext = [].
Proof.
  induction rs as [|r rs IH]; intros W out W' out' H.
  - injection H as _ <-. exists []. by rewrite app_nil_r.
  - rewrite for_cons in H.
    destruct (Regression.run_body lr self (W, out) r) as [[W1 out1]|] eqn:E;
      [|done].
    cbn [mbind option_bind] in H.
    apply run_body_log in E as [m ->].
    apply IH in H as (ext & -> & Hr & He).
    eexists. split; [by rewrite <-app_assoc|].
    unfold run_numbers, epoch_numbers in *.
    rewrite !omap_app, Hr, He, filter_cons.
    by destruct (decide (r `mod` 100 = 99)).
Qed.

Lemma epoch_loop_log lr t self es : ∀ W out W' out',
  Py.for_ es (Regression.epoch_body lr t self) (W, out) = Some (W', out') →
  ∃ ext, out' = out ++ ext ∧
         run_numbers ext
         = (es ≫= λ _, filter (λ r, r `mod` 100 = 99) (Py.range t)) ∧
         epoch_numbers ext = (λ e, e + 1) <$> es.
Proof.
  induction es as [|e es IH]; intros W out W' out' H.
  - injection H as _ <-. exists []. by rewrite app_nil_r.
  - rewrite for_cons in H.
    destruct (Regression.epoch_body lr t self (W, out) e)
      as [[W2 out2]|] eqn:E2; [|done].
    cbn [mbind option_bind] in H. unfold Regression.epoch_body in E2.
    destruct (Py.for_ (Py.range t) _ _) as [[W1 out1]|] eqn:E; [|done].
    injection E2 as <- <-.
    apply run_loop_log in E as (ext1 & -> & Hr1 & He1).
    apply IH in H as (ext & -> & Hr & He).
    eexists. split; [by rewrite <-!app_assoc|].
    unfold run_numbers, epoch_numbers in *.
    rewrite !omap_app, Hr1, He1, Hr, He. by csimpl.
Qed.

Lemma count_logged_runs (t : nat) :
  length (filter (λ r, r `mod` 100 = 99) (Py.range (Z.of_nat t)))
  = Z.to_nat (Z.of_nat t `div` 100).
Proof.
  induction t as [|t IH]; [done|].
  rewrite range_S, filter_app, length_app, IH, filter_cons, filter_nil.
  destruct (decide (Z.of_nat t `mod` 100 = 99)) as [E|E]; simpl length;
    rewrite Nat2Z.inj_succ; unfold Z.succ;
    pose proof (Nat2Z.is_nonneg t) as Hz;
    revert E Hz; generalize (Z.of_nat t); intros z E Hz;
    Z.div_mod_to_equations; lia.
Qed.

(** X21. Whatever the model, if [train] returns then it printed, in each
    epoch, one loss line for each run whose number is 99 modulo 100, in
    order, that is [t // 100] of them, and the epoch lines are numbered
    from 1 to [num_epochs]; apart from the weights the model is
    untouched. *)
Theorem regression_train_log self num_epochs lr t self' out :
  Regression.train self num_epochs lr t = Some (self', out) →
  run_numbers out
  = (Py.range num_epochs ≫= λ _,
       filter (λ r, r `mod` 100 = 99) (Py.range t)) ∧
  length (run_numbers out)
  = (Z.to_nat num_epochs * Z.to_nat (t `div` 100))%nat ∧
  epoch_numbers out = (λ e, e + 1) <$> Py.range num_epochs ∧
  Regression.y self' = Regression.y self ∧
  Regression.n self' = Regression.n self ∧
  Regression.input_size self' = Regression.input_size self ∧
  Regression.x_matrix self' = Regression.x_matrix self.
Proof.
  unfold Regression.train. intros H.
  destruct (Py.for_ _ _ _) as [[W out1]|] eqn:E; [|done].
  injection H as <- <-.
  apply epoch_loop_log in E as (ext & -> & Hr & He). simpl in *.
  split; [done|]. split; [|done]. rewrite Hr.
  assert (∀ es : list Z,
            length (es ≫= λ _, filter (λ r, r `mod` 100 = 99) (Py.range t))
            = (length es * Z.to_nat (t `div` 100))%nat) as Hlen.
  { intros es. induction es as [|e es IH]; [done|]. csimpl.
    rewrite length_app, IH. f_equal.
    destruct (decide (0 ≤ t)) as [Ht|Ht].
    - rewrite <-(Z2Nat.id t) by done. apply count_logged_runs.
    - rewrite range_nonpos by lia.
      assert (t `div` 100 < 0) by (apply Z.div_lt_upper_bound; lia).
      simpl. lia. }
  rewrite Hlen. f_equal. unfold Py.range. by rewrite length_seqZ.
Qed.

(** One epoch of 100 runs on the cubic example. *)
Lemma regression_train_log_witness :
  ∃ self' out,
    Regression.train model_cubic 1 lr_default 100 = Some (self', out) ∧
    run_numbers out = [99] ∧ epoch_numbers out = [1].
Proof.
  pose proof (regression_train_closed lr_default x_cubic 3 model_cubic
                1 100 fitted_cubic ltac:(discriminate)
                ltac:(by repeat constructor) eq_refl) as E.
  destruct (regression_train_log _ _ _ _ _ _ E) as (Hr & _ & He & _).
  eexists _, _. split; [exact E|]. split; [exact Hr|exact He].
Defined.

(** *** When [train] raises *)

Lemma regression_train_None self num_epochs lr t :
  (∀ st, Regression.run_body lr self st 0 = None) →
  1 ≤ num_epochs → 1 ≤ t →
  Regression.train self num_epochs lr t = None.
Proof.
  intros Hrun HE Ht. unfold Regression.train, Py.range.
  rewrite seqZ_cons, for_cons by lia.
  assert (∀ st e, Regression.epoch_body lr t self st e = None) as ->; [|done].
  intros st e. unfold Regression.epoch_body, Py.range.
  rewrite seqZ_cons, for_cons by lia. by rewrite Hrun.
Qed.

(** X22. Without samples every run divides by zero: when [input_size]
    is 0 a run raises, whatever the weights and the other attributes,
    and so does [train] as soon as it has a run to make. *)
Theorem regression_no_samples self lr st run num_epochs t :
  Regression.input_size self = 0 →
  Regression.run_body lr self st run = None ∧
  (1 ≤ num_epochs → 1 ≤ t →
   Regression.train self num_epochs lr t = None).
Proof.
  intros HN.
  assert (∀ st run, Regression.run_body lr self st run = None) as Hrun.
  { clear st run. intros [W out] run. unfold Regression.run_body. rewrite HN.
    destruct (Regression.matmul_nd _ _) as [y_pred|]; [|done].
    cbn [mbind option_bind].
    destruct (Regression.subtract_1d _ _) as [e|]; [|done].
    cbn [mbind option_bind].
    assert (py_div 1 (of_int 0) = None) as Hdiv by done.
    change (2 * 0) with 0. rewrite Hdiv.
    by destruct (decide (run `mod` 100 = 99)). }
  split; [done|]. intros HE Ht. by apply regression_train_None.
Qed.

(** The model that the constructor builds from empty inputs. *)
Lemma regression_no_samples_witness :
  Regression.train
    (Regression.MkModel [] 3 0 (Regression.Arr2 (powers [] 3)) w_cubic)
    5 lr_default 1000 = None.
Proof.
  refine (proj2 (regression_no_samples _ lr_default (w_cubic, []) 0 5 1000 _)
            _ _); [reflexivity|lia|lia].
Defined.

(** X23. [train] without runs does nothing but print: when [t <= 0] it
    returns the model as it was, whatever the model, after printing the
    starting weights once per epoch (nothing when [num_epochs <= 0]). *)
Theorem regression_no_run self num_epochs lr t :
  t ≤ 0 →
  Regression.train self num_epochs lr t
  = Some (self,
          (λ e, Regression.Epoch (e + 1) (Regression.weights self))
          <$> Py.range num_epochs).
Proof.
  intros Ht. unfold Regression.train.
  assert (∀ es W out,
            Py.for_ es (Regression.epoch_body lr t self) (W, out)
            = Some (W, out ++ ((λ e, Regression.Epoch (e + 1) W) <$> es)))
    as Hloop.
  { intros es W. induction es as [|e es IH]; intros out.
    - simpl. by rewrite app_nil_r.
    - rewrite for_cons.
      assert (Regression.epoch_body lr t self (W, out) e
              = Some (W, out ++ [Regression.Epoch (e + 1) W])) as ->.
      { unfold Regression.epoch_body. by rewrite range_nonpos by done. }
      cbn [mbind option_bind].
      rewrite IH. csimpl. by rewrite <-app_assoc. }
  rewrite Hloop. by destruct self.
Qed.

Lemma regression_no_run_witness :
  Regression.train model_cubic 2 lr_default 0
  = Some (model_cubic,
          [Regression.Epoch 1 w_cubic; Regression.Epoch 2 w_cubic]).
Proof. apply (regression_no_run model_cubic 2 lr_default 0). lia. Defined.

(** X24. The targets must match the samples: when [x_matrix] is 2-D and
    the number of targets is neither the number of its columns nor 1, a
    run raises (the shapes do not broadcast, or the gradient product
    does not fit), and so does [train] as soon as it has a run to make.
    A single target for several samples is not refused. *)
Theorem regression_target_mismatch self X lr st run num_epochs t :
  Regression.x_matrix self = Regression.Arr2 X →
  length (Regression.y self) ≠ ncols X →
  length (Regression.y self) ≠ 1%nat →
  Regression.run_body lr self st run = None ∧
  (1 ≤ num_epochs → 1 ≤ t →
   Regression.train self num_epochs lr t = None).
Proof.
  intros HX Hy Hy1.
  assert (∀ st run, Regression.run_body lr self st run = None) as Hrun.
  { clear st run. intros [W out] run. unfold Regression.run_body. rewrite HX.
    cbn [Regression.matmul_nd].
    destruct (matmul W X) as [P|] eqn:EP; [|done].
    apply matmul_Some in EP as [_ ->].
    cbn [mbind option_bind Regression.subtract_1d].
    unfold subtract, broadcast. rewrite nrows_build, ncols_build.
    destruct (bdim (nrows W) _) as [r|]; [|done].
    cbn [mbind option_bind].
    change (ncols (as_row (Regression.y self)))
      with (length (Regression.y self)).
    unfold bdim at 1. rewrite decide_False by done.
    rewrite (decide_False (P:=length (Regression.y self) = 1%nat)) by done.
    destruct (decide (ncols X = 1%nat)) as [HX1|]; [|done].
    cbn [mbind option_bind].
    match goal with
    | |- (?o ≫= _) = None => destruct o as [out'|]; [|done]
    end.
    cbn [mbind option_bind].
    destruct (py_div 1 _) as [c|]; [|done].
    cbn [mbind option_bind Regression.scale_nd Regression.transpose_nd
           Regression.matmul_nd].
    unfold matmul. rewrite decide_False; [done|].
    unfold scale, transpose. rewrite !nrows_build, !ncols_build. congruence. }
  split; [done|]. intros HE Ht. by apply regression_train_None.
Qed.

(** Three targets for the four samples of the cubic example. *)
Lemma regression_target_mismatch_witness :
  Regression.train
    (Regression.MkModel (of_int <$> [1; 9; 47]) 3 4
       (Regression.Arr2 (powers x_cubic 3)) w_cubic)
    5 lr_default 1000 = None.
Proof.
  destruct (regression_target_mismatch
              (Regression.MkModel (of_int <$> [1; 9; 47]) 3 4
                 (Regression.Arr2 (powers x_cubic 3)) w_cubic)
              (powers x_cubic 3) lr_default (w_cubic, []) 0 5 1000)
    as [_ H].
  - reflexivity.
  - simpl. lia.
  - simpl. lia.
  - apply H; lia.
Defined.

(** X25. The order 0 is not supported: for [n = 0] the constructor
    succeeds and leaves the 1-D array of ones as [x_matrix], and then a
    run raises when its number is 99 modulo 100 (the error has no second
    axis to index) and, whatever its number, when the weights do not
    have as many columns as there are samples; so [train] raises as soon
    as an epoch has 100 runs. *)
Theorem regression_order_zero {G} (random : G → nat → nat → ndarray * G)
    g x y lr num_epochs t :
  ∃ self g',
    Regression.init random g x y 0 = Some (self, g') ∧
    Regression.x_matrix self = Regression.ones (length x) ∧
    (∀ W out run,
       run `mod` 100 = 99 ∨ ncols W ≠ length x →
       Regression.run_body lr self (W, out) run = None) ∧
    (1 ≤ num_epochs → 100 ≤ t →
     Regression.train self num_epochs lr t = None).
Proof.
  unfold Regression.init. rewrite seqZ_nil by lia.
  cbn [Py.for_ mbind option_bind].
  rewrite decide_False by lia.
  destruct (random g 1%nat (Z.to_nat (0 + 1))) as [W0 g'] eqn:Er.
  eexists _, g'. split; [done|]. cbn [Regression.x_matrix].
  unfold Py.len. rewrite Nat2Z.id. split; [done|].
  set (self := Regression.MkModel _ _ _ _ _).
  assert (∀ W out run,
            run `mod` 100 = 99 ∨ ncols W ≠ length x →
            Regression.run_body lr self (W, out) run = None) as Hrun.
  { intros W out run Hcase. unfold Regression.run_body.
    cbn [Regression.x_matrix self Regression.ones Regression.matmul_nd].
    rewrite length_replicate.
    destruct (decide (ncols W = length x)) as [Hc|Hc]; [|done].
    destruct Hcase as [H99|]; [|done].
    cbn [mbind option_bind Regression.subtract_1d].
    destruct (bdim _ _) as [m|]; [|done]. cbn [mbind option_bind].
    destruct (decide (run `mod` 100 = 99)); [|done].
    destruct (py_div 1 (of_int (2 * _))) as [c|]; [|done].
    by cbn [mbind option_bind Regression.row0]. }
  split; [done|]. intros HE Ht. unfold Regression.train, Py.range.
  rewrite seqZ_cons, for_cons by lia.
  assert (∀ st e, Regression.epoch_body lr t self st e = None) as ->; [|done].
  intros st e. unfold Regression.epoch_body.
  assert (Py.range t = Py.range 99 ++ 99 :: seqZ 100 (t - 100)) as ->.
  { unfold Py.range. replace t with (99 + (1 + (t - 100))) at 1 by lia.
    rewrite seqZ_app by lia. f_equal. rewrite seqZ_cons by lia.
    f_equal. f_equal; lia. }
  rewrite for_app.
  destruct (Py.for_ (Py.range 99) _ _) as [[W out]|]; [|done].
  cbn [mbind option_bind]. rewrite for_cons, Hrun; [done|by left].
Qed.

(** The cubic example with the order 0. *)
Lemma regression_order_zero_witness :
  ∃ self g',
    Regression.init random_zero () x_cubic y_cubic 0 = Some (self, g') ∧
    Regression.train self 5 lr_default 1000 = None.
Proof.
  destruct (regression_order_zero random_zero () x_cubic y_cubic
              lr_default 5 1000) as (self & g' & E & _ & _ & H).
  exists self, g'. split; [exact E|apply H; lia].
Defined.
